(** * db2_helpers: secret-key lifecycle, encrypted settings and CSV export

    A shallow embedding of [src/db2_helpers/db2_helpers.py] and of
    [export_table] from [src/db_commands/db_import_export.py].

    The Python functions are state-passing computations over a [world]
    (file system, module globals, entropy, terminal) that either return a
    value or raise an exception.  The [cryptography], [hashlib], [base64]
    and codec primitives are external collaborators: they are taken as an
    interface ([library]) together with the contract the code relies on
    ([library_laws]). *)

From Stdlib Require Import ZArith.
From stdpp Require Import gmap strings list fin_maps pretty.

Local Open Scope Z_scope.
Local Open Scope string_scope.

(** ** Python values, exceptions and outcomes *)

Module Py.

(** The values found in the pickled records: [None], booleans and [str]. *)
Inductive pyval : Type :=
  | VNone
  | VBool (b : bool)
  | VStr (s : string).

#[export] Instance pyval_eq_dec : EqDecision pyval.
Proof. solve_decision. Defined.

(** Truth value of an object, as [if x:] tests it. *)
Definition truthy (v : pyval) : bool :=
  match v with
  | VNone => false
  | VBool b => b
  | VStr s => negb (bool_decide (s = ""))
  end.

(** [bytes] objects. *)
Definition bytes : Type := list Byte.byte.

#[export] Instance byte_eq_dec : EqDecision Byte.byte := Byte.byte_eq_dec.

(** The exception classes the modelled code can meet.  All of them derive
    from [Exception]. *)
Inductive exn : Type :=
  | FileNotFoundError
  | PermissionError
  | KeyError (k : string)
  | TypeError
  | AttributeError
  | ValueError
  | InvalidToken
  | UnicodeDecodeError
  | EOFError
  | DriverError (msg : string).

#[export] Instance exn_eq_dec : EqDecision exn.
Proof. solve_decision. Defined.

Inductive outcome (A : Type) : Type :=
  | Return (a : A)
  | Raise (e : exn).
Arguments Return {A} a.
Arguments Raise {A} e.

(** A computation over a state [W]: side effects made before an exception
    is raised stay in the state. *)
Definition M (W A : Type) : Type := W -> outcome A * W.

Definition ret {W A} (a : A) : M W A := fun w => (Return a, w).

Definition raise {W A} (e : exn) : M W A := fun w => (Raise e, w).

Definition bind {W A B} (m : M W A) (k : A -> M W B) : M W B :=
  fun w =>
    match m w with
    | (Return a, w') => k a w'
    | (Raise e, w') => (Raise e, w')
    end.

(** [try: body / except <classes>: handler].  The handler function answers
    [None] for an exception no [except] clause matches, which then
    propagates. *)
Definition try_except {W A} (body : M W A) (handler : exn -> option (M W A)) : M W A :=
  fun w =>
    match body w with
    | (Return a, w') => (Return a, w')
    | (Raise e, w') =>
        match handler e with
        | Some h => h w'
        | None => (Raise e, w')
        end
    end.

(** [d[k]] on a dictionary. *)
Definition getitem {W} (d : gmap string pyval) (k : string) : M W pyval :=
  match d !! k with
  | Some v => ret v
  | None => raise (KeyError k)
  end.

(** Inversion of a returning [bind] and of a returning [try_except]. *)
Lemma bind_Return {W A B} (m : M W A) (k : A -> M W B) w b w' :
  bind m k w = (Return b, w') ->
  exists a w1, m w = (Return a, w1) /\ k a w1 = (Return b, w').
Proof.
  unfold bind. destruct (m w) as [[a|e] w1]; [eauto | discriminate].
Qed.

Lemma try_except_Return {W A} (body : M W A) handler w a w' :
  try_except body handler w = (Return a, w') ->
  body w = (Return a, w') \/
  exists e w1 h, body w = (Raise e, w1) /\ handler e = Some h /\ h w1 = (Return a, w').
Proof.
  unfold try_except. destruct (body w) as [[a0|e] w1]; [by left|].
  destruct (handler e) as [h|] eqn:Hh; [|discriminate]. right. eauto 10.
Qed.

(** Either step of a [bind] decides its outcome. *)
Lemma bind_cases {W A B} (m : M W A) (k : A -> M W B) w o w' :
  bind m k w = (o, w') ->
  (exists a w1, m w = (Return a, w1) /\ k a w1 = (o, w')) \/
  (exists e, m w = (Raise e, w') /\ o = Raise e).
Proof.
  unfold bind. destruct (m w) as [[a|e] w1]; [eauto|].
  intros [= <- <-]. eauto.
Qed.

(** *** Frames

    [only_writes files tmp m]: whatever its outcome, [m] leaves every file
    but [tmp] as it was ([files] projects the file system out of the
    state). *)
Section Frames.

Context {W F : Type} (files : W -> gmap string F) (tmp : string).

Definition only_writes {A} (m : M W A) : Prop :=
  forall w o w', m w = (o, w') ->
    forall path, path <> tmp -> files w' !! path = files w !! path.

Lemma ow_ret {A} (a : A) : only_writes (ret a).
Proof. by intros w o w' [= <- <-]. Qed.

Lemma ow_raise {A} e : only_writes (@raise W A e).
Proof. by intros w o w' [= <- <-]. Qed.

Lemma ow_bind {A B} (m : M W A) (k : A -> M W B) :
  only_writes m -> (forall a, only_writes (k a)) -> only_writes (bind m k).
Proof.
  intros Hm Hk w o w' H path Hp. unfold bind in H.
  destruct (m w) as [[a|e] w1] eqn:E.
  - rewrite (Hk a _ _ _ H path Hp). by apply (Hm _ _ _ E).
  - injection H as <- <-. by apply (Hm _ _ _ E).
Qed.

Lemma ow_try {A} (body : M W A) handler :
  only_writes body ->
  (forall e h, handler e = Some h -> only_writes h) ->
  only_writes (try_except body handler).
Proof.
  intros Hb Hh w o w' H path Hp. unfold try_except in H.
  destruct (body w) as [[a|e] w1] eqn:E.
  - injection H as <- <-. by apply (Hb _ _ _ E).
  - destruct (handler e) as [h|] eqn:Eh.
    + rewrite (Hh _ _ Eh _ _ _ H path Hp). by apply (Hb _ _ _ E).
    + injection H as <- <-. by apply (Hb _ _ _ E).
Qed.

Lemma ow_getitem d k : only_writes (getitem d k).
Proof. unfold getitem. destruct (d !! k); [apply ow_ret | apply ow_raise]. Qed.

End Frames.

Create HintDb ow discriminated.
#[export] Hint Resolve ow_ret ow_raise ow_bind ow_try ow_getitem : ow.

End Py.

Export Py.

Declare Scope py_scope.
Delimit Scope py_scope with py.
Notation "'do' x <- c1 ; c2" := (bind c1 (fun x => c2))
  (at level 10, x name, c1 at level 100, c2 at level 200) : py_scope.
Notation "c1 ;; c2" := (bind c1 (fun _ => c2))
  (at level 100, c2 at level 200, right associativity) : py_scope.
Local Open Scope py_scope.

(** ** The external libraries

    [str.encode]/[bytes.decode] (UTF-8), [str.lower], [str.upper],
    [hashlib.blake2b], [base64.urlsafe_b64encode], [os.urandom] and, from
    [cryptography], [PBKDF2HMAC] and [Fernet].  Entropy and the clock are
    read from a counter of the world, so that [Fernet.encrypt] is a function
    of the key, that counter and the plaintext. *)

Inductive hash_algorithm : Type := SHA256.

Record library : Type := Library {
  str_encode : string -> bytes;
  bytes_decode : bytes -> option string;
  str_lower : string -> string;
  str_upper : string -> string;
  blake2b_hexdigest : bytes -> string;
  urlsafe_b64encode : bytes -> bytes;
  os_urandom : nat -> N -> bytes;
  (* PBKDF2HMAC(algorithm, length, salt, iterations).derive(password) *)
  PBKDF2HMAC : hash_algorithm -> nat -> bytes -> Z -> bytes -> bytes;
  (* Fernet(key) raises ValueError unless the key is well formed *)
  fernet_key_ok : bytes -> bool;
  fernet_encrypt : bytes -> N -> bytes -> bytes;
  fernet_decrypt : bytes -> bytes -> option bytes;
}.

(** What the code relies on: UTF-8 decoding inverts encoding and is
    injective; base64 text and Fernet tokens are ASCII; the base64 text of
    32 bytes is a Fernet key; the derived key and the random bytes have the
    requested length; a token decrypts under the key that made it; a token
    is never its own plaintext. *)
Record library_laws (L : library) : Prop := LibraryLaws {
  decode_encode : forall s, bytes_decode L (str_encode L s) = Some s;
  encode_decode : forall b s, bytes_decode L b = Some s -> str_encode L s = b;
  b64_text : forall b, is_Some (bytes_decode L (urlsafe_b64encode L b));
  b64_key : forall b, length b = 32%nat -> fernet_key_ok L (urlsafe_b64encode L b) = true;
  pbkdf2_length : forall a n salt it pw, length (PBKDF2HMAC L a n salt it pw) = n;
  urandom_length : forall n r, length (os_urandom L n r) = n;
  token_text : forall k r m, is_Some (bytes_decode L (fernet_encrypt L k r m));
  fernet_roundtrip : forall k r m,
    fernet_key_ok L k = true -> fernet_decrypt L k (fernet_encrypt L k r m) = Some m;
  token_not_plain : forall k r m, fernet_encrypt L k r m <> m;
}.

(** ** db2_helpers.py *)

Module Helpers.

(** *** The operating system

    A file holds a pickled dictionary and carries permission bits, an owner
    and a group.  The process is unprivileged: the owner class, then the
    group class, then the others class decides an access (POSIX
    discretionary access control); only the owner may [chmod].  Directories
    are not modelled: [p_create] says whether the process may create a
    missing file at a path, and with which errno it is refused. *)

Record file : Type := File {
  f_data : gmap string pyval;
  f_mode : Z;
  f_uid : nat;
  f_gid : nat;
}.

Inductive errno : Type := ENOENT | EACCES.

Definition OSError (e : errno) : exn :=
  match e with
  | ENOENT => FileNotFoundError
  | EACCES => PermissionError
  end.

Record process : Type := Process {
  p_home : string;                      (* Path.home() *)
  p_euid : nat;
  p_egid : nat;
  p_groups : nat -> bool;               (* supplementary groups *)
  p_umask : Z;
  p_create : string -> option errno;
}.

(** The state the functions of the module act on. *)
Record world : Type := World {
  w_files : gmap string file;
  w_default_secretkey : gmap string pyval;   (* the global _default_secretkey *)
  w_entropy : N;                             (* os.urandom / time.time *)
  w_stdin : list string;                     (* lines typed at getpass *)
  w_stdout : list string;                    (* lines printed *)
}.

Definition set_files (fs : gmap string file) (w : world) : world :=
  World fs (w_default_secretkey w) (w_entropy w) (w_stdin w) (w_stdout w).

Definition set_default_secretkey (d : gmap string pyval) (w : world) : world :=
  World (w_files w) d (w_entropy w) (w_stdin w) (w_stdout w).

Definition S_IRUSR : Z := 256.   (* 0o400 *)
Definition S_IWUSR : Z := 128.   (* 0o200 *)

(** The value of the module global [_default_secretkey] at import. *)
Definition _default_secretkey : gmap string pyval :=
  <["secrethash" := VStr ""]> (<["hash" := VStr ""]>
    (<["locked" := VBool false]> (<["secret" := VNone]> ∅))).

Section Functions.

Context (L : library) (P : process).

Definition perm_shift (f : file) : Z :=
  if bool_decide (f_uid f = p_euid P) then 6
  else if bool_decide (f_gid f = p_egid P) || p_groups P (f_gid f) then 3
  else 0.

Definition may_read (f : file) : bool := Z.testbit (f_mode f) (perm_shift f + 2).
Definition may_write (f : file) : bool := Z.testbit (f_mode f) (perm_shift f + 1).

(** [with open(path, "rb") as f: pickle.load(f)] *)
Definition pickle_load (path : string) : M world (gmap string pyval) :=
  fun w =>
    match w_files w !! path with
    | None => (Raise FileNotFoundError, w)
    | Some f =>
        if may_read f then (Return (f_data f), w) else (Raise PermissionError, w)
    end.

(** [with open(path, "wb") as f: pickle.dump(obj, f)]: an existing file is
    truncated and keeps its mode and owner, a missing one is created with
    mode [0o666 & ~umask]. *)
Definition pickle_dump (obj : gmap string pyval) (path : string) : M world unit :=
  fun w =>
    match w_files w !! path with
    | Some f =>
        if may_write f
        then (Return tt, set_files (<[path := File obj (f_mode f) (f_uid f) (f_gid f)]> (w_files w)) w)
        else (Raise PermissionError, w)
    | None =>
        match p_create P path with
        | Some e => (Raise (OSError e), w)
        | None =>
            (Return tt,
             set_files (<[path := File obj (Z.land 438 (Z.lnot (p_umask P))) (p_euid P) (p_egid P)]>
                          (w_files w)) w)
        end
    end.

(** [os.chmod(path, mode)] *)
Definition os_chmod (path : string) (mode : Z) : M world unit :=
  fun w =>
    match w_files w !! path with
    | None => (Raise FileNotFoundError, w)
    | Some f =>
        if bool_decide (f_uid f = p_euid P)
        then (Return tt, set_files (<[path := File (f_data f) mode (f_uid f) (f_gid f)]> (w_files w)) w)
        else (Raise PermissionError, w)
    end.

Definition print (line : string) : M world unit :=
  fun w => (Return tt,
            World (w_files w) (w_default_secretkey w) (w_entropy w) (w_stdin w)
                  (w_stdout w ++ [line])).

(** [getpass(prompt)]: the next line typed at the terminal. *)
Definition getpass : M world string :=
  fun w =>
    match w_stdin w with
    | [] => (Raise EOFError, w)
    | l :: rest =>
        (Return l, World (w_files w) (w_default_secretkey w) (w_entropy w) rest (w_stdout w))
    end.

(** The entropy counter, read and advanced. *)
Definition fresh : M world N :=
  fun w => (Return (w_entropy w),
            World (w_files w) (w_default_secretkey w) (N.succ (w_entropy w)) (w_stdin w)
                  (w_stdout w)).

(** [str.encode(x)] *)
Definition encode (x : pyval) : M world bytes :=
  match x with
  | VStr s => ret (str_encode L s)
  | _ => raise TypeError
  end.

(** [b.decode()] *)
Definition decode (b : bytes) : M world string :=
  match bytes_decode L b with
  | Some s => ret s
  | None => raise UnicodeDecodeError
  end.

(** [x.lower()] *)
Definition lower (x : pyval) : M world string :=
  match x with
  | VStr s => ret (str_lower L s)
  | _ => raise AttributeError
  end.

(** [Fernet(key)], [k.encrypt(data)], [k.decrypt(token)], [Fernet.generate_key()] *)
Definition Fernet (key : bytes) : M world bytes :=
  if fernet_key_ok L key then ret key else raise ValueError.

Definition encrypt (k data : bytes) : M world bytes :=
  do r <- fresh; ret (fernet_encrypt L k r data).

Definition decrypt (k token : bytes) : M world bytes :=
  match fernet_decrypt L k token with
  | Some m => ret m
  | None => raise InvalidToken
  end.

Definition generate_key : M world bytes :=
  do r <- fresh; ret (urlsafe_b64encode L (os_urandom L 32 r)).

(** [blake2b(str.encode(s)).hexdigest()] *)
Definition blake2b_hex (s : string) : string := blake2b_hexdigest L (str_encode L s).

Definition _secretkeyfile : string := p_home P +:+ "/.db2_helpers.secret.key".

(** The fixed salt [b'2390489409578390']. *)
Definition salt : bytes :=
  [Byte.x32; Byte.x33; Byte.x39; Byte.x30; Byte.x34; Byte.x38; Byte.x39; Byte.x34;
   Byte.x30; Byte.x39; Byte.x35; Byte.x37; Byte.x38; Byte.x33; Byte.x39; Byte.x30].

(** [password_to_key], lines 470-483 *)
Definition password_to_key (passphrase : string) : bytes :=
  let password := str_encode L passphrase in
  let kdf := PBKDF2HMAC L SHA256 32 salt 100000 in
  let key := urlsafe_b64encode L (kdf password) in
  key.

(** Reading and rebinding the module global [_default_secretkey]. *)
Definition get_default_secretkey : M world (gmap string pyval) :=
  fun w => (Return (w_default_secretkey w), w).

Definition put_default_secretkey (d : gmap string pyval) : M world unit :=
  fun w => (Return tt, set_default_secretkey d w).

(** [if password:] on an argument that is [None] or a [str]. *)
Definition supplied (password : option string) : bool :=
  match password with
  | Some s => negb (bool_decide (s = ""))
  | None => false
  end.

(** Truth value of a dictionary: empty is false. *)
Definition dict_truthy (d : gmap string pyval) : bool :=
  negb (bool_decide (d = ∅)).

(** [db_keys_set], lines 333-361.  With [newkey] the name [secretkey] is
    bound to the global dictionary itself, which the four assignments
    update in place; the dictionary returned is that global. *)
Definition db_keys_set (secretkey : gmap string pyval) (newkey : bool)
  : M world (gmap string pyval) :=
  do secretkey <-
    (if newkey then
       do secret <- generate_key;
       let secrethash := blake2b_hexdigest L secret in
       do text <- decode secret;
       do g <- get_default_secretkey;
       let g := <["secret" := VStr text]> g in
       let g := <["locked" := VBool false]> g in
       let g := <["hash" := VNone]> g in
       let g := <["secrethash" := VStr secrethash]> g in
       put_default_secretkey g ;;
       ret g
     else ret secretkey);
  do written <-
    try_except
      (pickle_dump secretkey _secretkeyfile ;; ret true)
      (fun e =>
         match e with
         | PermissionError =>
             Some (print "Failed trying to write secret key file (permissions)." ;; ret false)
         | FileNotFoundError =>
             Some (print "Failed trying to write secret key file (not found)." ;; ret false)
         | _ => None
         end);
  if negb written then ret ∅ else
  do moded <-
    try_except
      (os_chmod _secretkeyfile (Z.lor S_IRUSR S_IWUSR) ;; ret true)
      (fun e =>
         match e with
         | PermissionError =>
             Some (print "Failed setting permissions on secret key file." ;; ret false)
         | _ => None
         end);
  if negb moded then ret ∅ else
  ret secretkey.

(** The prompt loop of [db_keys_get], lines 281-288: at most ten prompts.
    [fuel] bounds the recursion; ten is enough, since the tenth pass clears
    [getit]. *)
Fixpoint prompt_loop (fuel attempts : nat) (secretkey : gmap string pyval)
  (passphrase : string) : M world string :=
  match fuel with
  | O => ret passphrase
  | S fuel =>
      let attempts := S attempts in
      let getit := negb (9 <? attempts)%nat in
      do passphrase <- getpass;
      do h <- getitem secretkey "hash";
      let getit := if bool_decide (h = VStr (blake2b_hex passphrase)) then false else getit in
      if getit then prompt_loop fuel attempts secretkey passphrase else ret passphrase
  end.

(** [db_keys_get], lines 260-296 *)
Definition db_keys_get (password : option string) (prompt : bool)
  : M world (gmap string pyval) :=
  let passphrase := "" in
  try_except
    (do secretkey <- pickle_load _secretkeyfile;
     do locked <- getitem secretkey "locked";
     if truthy locked then
       do passphrase <-
         (if supplied password then
            let passphrase := default "" password in
            do h <- getitem secretkey "hash";
            (if bool_decide (h = VStr (blake2b_hex passphrase)) then
               print "Secret key file is locked." ;;
               print "Using supplied password for temporary unlock."
             else
               print "Secret key file is locked." ;;
               print "Supplied unlock password does not match secret") ;;
            ret passphrase
          else if prompt then
            print "Secret key file is locked." ;;
            print "No secret password supplied" ;;
            prompt_loop 10 0 secretkey passphrase
          else ret passphrase);
       do k <- Fernet (password_to_key passphrase);
       do sec <- getitem secretkey "secret";
       do raw <- encode sec;
       do plain <- decrypt k raw;
       do text <- decode plain;
       let secretkey := <["secret" := VStr text]> secretkey in
       let secretkey := <["locked" := VBool false]> secretkey in
       ret secretkey
     else ret secretkey)
    (fun e =>
       match e with
       | FileNotFoundError =>
           Some (print "Secret key file does not exist, creating new one" ;;
                 do secretkey <- get_default_secretkey;
                 db_keys_set secretkey true)
       | _ => None
       end).

(** [db_keys_lock], lines 300-329.  The body of the [try] answers [Some b]
    where the source returns [b] from inside it, [None] where it falls
    through to the statements after the [try]. *)
Definition db_keys_lock (passphrase : option string) : M world bool :=
  do early <-
    try_except
      (do secretkey <- pickle_load _secretkeyfile;
       do locked <- getitem secretkey "locked";
       if truthy locked then
         print "Secret key file is already locked" ;; ret (Some true)
       else
         do usepass <-
           (if supplied passphrase then ret (Some (default "" passphrase))
            else
              do usepass <- getpass;
              do usepass2 <- getpass;
              print "" ;;
              if negb (bool_decide (usepass = usepass2)) then
                print "Pass phrase mismatch, secret key still unlocked" ;; ret None
              else ret (Some usepass));
         match usepass with
         | None => ret (Some false)
         | Some usepass =>
             do secretkey <-
               (if negb (bool_decide (usepass = "")) then
                  do k <- Fernet (password_to_key usepass);
                  do sec <- getitem secretkey "secret";
                  do raw <- encode sec;
                  do token <- encrypt k raw;
                  do text <- decode token;
                  let secretkey := <["secret" := VStr text]> secretkey in
                  let secretkey := <["locked" := VBool true]> secretkey in
                  let secretkey := <["hash" := VStr (blake2b_hex usepass)]> secretkey in
                  ret secretkey
                else ret secretkey);
             db_keys_set secretkey false ;;
             ret None
         end)
      (fun _ => Some (print "Error locking secret key content" ;; ret (Some false)));
  match early with
  | Some b => ret b
  | None => print "Secret key successfully locked" ;; ret true
  end.

(** [db_keys_unlock], lines 365-393 *)
Definition db_keys_unlock (passphrase : option string) : M world bool :=
  do early <-
    try_except
      (do secretkey <- pickle_load _secretkeyfile;
       do locked <- getitem secretkey "locked";
       if negb (truthy locked) then
         print "Secret key file is already unlocked" ;; ret (Some true)
       else
         do usepass <-
           (if supplied passphrase then ret (default "" passphrase)
            else
              do usepass <- getpass;
              print "" ;;
              ret usepass);
         if negb (bool_decide (usepass = "")) then
           do h <- getitem secretkey "hash";
           if bool_decide (h = VStr (blake2b_hex usepass)) then
             do k <- Fernet (password_to_key usepass);
             do sec <- getitem secretkey "secret";
             do raw <- encode sec;
             do plain <- decrypt k raw;
             do text <- decode plain;
             let secretkey := <["secret" := VStr text]> secretkey in
             let secretkey := <["locked" := VBool false]> secretkey in
             db_keys_set secretkey false ;;
             ret None
           else
             print "Pass phrase did not match, secret key remains locked" ;;
             ret (Some false)
         else ret None)
      (fun _ => Some (print "Error locking secret key content" ;; ret (Some false)));
  match early with
  | Some b => ret b
  | None => print "Secret key successfully unlocked" ;; ret true
  end.

(** The name of a settings file: [_default_settings_location] is [Path("")]. *)
Definition settings_file (environment hostname database : string) : string :=
  ((((environment +:+ "_") +:+ hostname) +:+ "_") +:+ database) +:+ ".pickle".

(** [db_load_settings], lines 397-418: [None] or the settings. *)
Definition db_load_settings (database hostname environment : string)
  (password : option string) : M world (option (gmap string pyval)) :=
  do keys <- db_keys_get password true;
  let fname := settings_file (str_lower L environment) (str_lower L hostname)
                             (str_lower L database) in
  try_except
    (do settings <- pickle_load fname;
     if dict_truthy keys then
       do sh <- getitem settings "secrethash";
       do kh <- getitem keys "secrethash";
       if bool_decide (sh = kh) then
         do ksec <- getitem keys "secret";
         do kraw <- encode ksec;
         do k <- Fernet kraw;
         do pwd <- getitem settings "pwd";
         do raw <- encode pwd;
         do plain <- decrypt k raw;
         do text <- decode plain;
         ret (Some (<["pwd" := VStr text]> settings))
       else
         print "Saved settings are incorrect, wrong secret key" ;;
         ret None
     else ret (Some settings))
    (fun _ => Some (ret None)).

(** [db_save_settings], lines 421-449 *)
Definition db_save_settings (settings : gmap string pyval) (password : option string)
  : M world bool :=
  let use_settings := settings in
  do keys <- db_keys_get password true;
  do keys <-
    (if negb (dict_truthy keys)
        || negb (bool_decide (is_Some (keys !! "secret")))
        || negb (truthy (default VNone (keys !! "secret")))
     then
       print "Setting up new secret key file" ;;
       do d <- get_default_secretkey;
       db_keys_set d true
     else ret keys);
  do kh <- getitem keys "secrethash";
  let use_settings := <["secrethash" := kh]> use_settings in
  do ksec <- getitem keys "secret";
  do kraw <- encode ksec;
  do k <- Fernet kraw;
  do pwd <- getitem use_settings "pwd";
  do raw <- encode pwd;
  do token <- encrypt k raw;
  do text <- decode token;
  let use_settings := <["pwd" := VStr text]> use_settings in
  do e <- getitem use_settings "environment";
  do e <- lower e;
  do h <- getitem use_settings "hostname";
  do h <- lower h;
  do d <- getitem use_settings "database";
  do d <- lower d;
  let fname := settings_file e h d in
  do written <-
    try_except
      (pickle_dump use_settings fname ;; ret true)
      (fun e =>
         match e with
         | PermissionError => Some (print "Failed trying to write credentials file." ;; ret false)
         | _ => None
         end);
  if negb written then ret false else
  do moded <-
    try_except
      (os_chmod fname (Z.lor S_IRUSR S_IWUSR) ;; ret true)
      (fun e =>
         match e with
         | PermissionError =>
             Some (print "Failed setting permissions on credentials file." ;; ret false)
         | _ => None
         end);
  if negb moded then ret false else
  ret true.

End Functions.

End Helpers.

(** ** db_import_export.py: [export_table] *)

Module ImportExport.

(** A fetched row: the dictionary [fetch_assoc] returns, from column name
    to the text the CSV writer emits for the value. *)
Abbreviation row := (gmap string string).

(** What the [ibm_db] driver does with a prepared statement: the names
    [field_name] yields by index, the result of [execute], the results of
    the successive [fetch_assoc] calls (after the last one, [False]), and
    the result of [free_stmt]. *)
Record statement : Type := Statement {
  st_fields : outcome (list string);
  st_execute : outcome bool;
  st_rows : list (outcome row);
  st_free : outcome bool;
}.

(** The connection [_hdbc]: the COLUMN_NAME of each row of the primary-keys
    result set of a table, the statement a SQL text prepares to, and the
    message [stmt_errormsg] gives. *)
Record driver : Type := Driver {
  d_primary_keys : string -> string -> outcome (list string);
  d_prepare : string -> outcome statement;
  d_errormsg : string;
}.

(** A file is the sequence of CSV records written to it. *)
Record world : Type := World {
  w_files : gmap string (list (list string));
  w_stdout : list string;
}.

Definition set_files (fs : gmap string (list (list string))) (w : world) : world :=
  World fs (w_stdout w).

Section Functions.

Context (L : library) (D : driver).
(** The globals [_folder] and [_write_headers], and the paths at which the
    operating system refuses [open(path, "w")]. *)
Context (_folder : string) (_write_headers : bool) (refused : string -> option exn).

Definition print (line : string) : M world unit :=
  fun w => (Return tt, World (w_files w) (w_stdout w ++ [line])).

(** [str(err)] *)
Definition str (err : exn) : string :=
  match err with
  | DriverError msg => msg
  | KeyError k => k
  | _ => ""
  end.

(** [db_error(quiet)]: the driver's message, printed unless [quiet]. *)
Definition db_error (quiet : bool) : M world unit :=
  if quiet then ret tt else print (d_errormsg D).

Definition lift {A} (o : outcome A) : M world A :=
  match o with
  | Return a => ret a
  | Raise e => raise e
  end.

(** [Path(_folder, name)] *)
Definition Path (name : string) : string := _folder +:+ "/" +:+ name.

(** [open(path, "w")]: the file is created or truncated. *)
Definition open_w (path : string) : M world unit :=
  fun w =>
    match refused path with
    | Some e => (Raise e, w)
    | None => (Return tt, set_files (<[path := []]> (w_files w)) w)
    end.

(** One record written through the open file. *)
Definition write_record (path : string) (record : list string) : M world unit :=
  fun w =>
    (Return tt, set_files (<[path := (default [] (w_files w !! path) ++ [record])%list]> (w_files w)) w).

(** [path.unlink(True)]: a missing file is no error. *)
Definition unlink (path : string) : M world unit :=
  fun w => (Return tt, set_files (delete path (w_files w)) w).

(** [src.rename(dst)] *)
Definition rename (src dst : string) : M world unit :=
  fun w =>
    match w_files w !! src with
    | None => (Raise FileNotFoundError, w)
    | Some content => (Return tt, set_files (<[dst := content]> (delete src (w_files w))) w)
    end.

(** [get_index], lines 220-245.  The first row is read with [fetch_tuple],
    the following ones with [fetch_assoc], whose dictionary has no key [3]:
    a second row raises [KeyError]. *)
Definition get_index (schema tbname : string) : M world (option string) :=
  try_except
    (do names <- lift (d_primary_keys D schema tbname);
     match names with
     | [] => ret (Some "")
     | [name] => ret (Some ("" +:+ "" +:+ name))
     | _ :: _ :: _ => raise (KeyError "3")
     end)
    (fun err => Some (print (str err) ;; db_error false ;; ret None)).

(** The loop of [get_columns]: names are collected up to the first false
    one ([False] past the last column, or an empty name). *)
Fixpoint collect_columns (names columns : list string) : list string :=
  match names with
  | [] => columns
  | colname :: names =>
      if bool_decide (colname = "") then columns
      else collect_columns names (columns ++ [colname])%list
  end.

(** [get_columns], lines 308-324 *)
Definition get_columns (stmt : statement) : M world (option (list string)) :=
  try_except
    (do names <- lift (st_fields stmt);
     ret (Some (collect_columns names [])))
    (fun err => Some (print (str err) ;; db_error false ;; ret None)).

(** [csv.DictWriter(fileout, fieldnames)]: [_dict_to_list] raises
    [ValueError] on a key that is no field name; a missing value is written
    as the empty [restval]. *)
Definition dict_to_list (fieldnames : option (list string)) (rowdict : row)
  : M world (list string) :=
  match fieldnames with
  | None => raise TypeError
  | Some names =>
      if bool_decide (dom rowdict ⊆ list_to_set names)
      then ret ((fun key => default "" (rowdict !! key)) <$> names)
      else raise ValueError
  end.

Definition writerow (fieldnames : option (list string)) (path : string) (rowdict : row)
  : M world unit :=
  do record <- dict_to_list fieldnames rowdict;
  write_record path record.

Definition writeheader (fieldnames : option (list string)) (path : string) : M world unit :=
  match fieldnames with
  | None => raise TypeError
  | Some names => writerow fieldnames path (list_to_map (zip names names))
  end.

(** [ibm_db.fetch_assoc(stmt)] on what is left of the result set. *)
Definition fetch_assoc (pending : list (outcome row))
  : M world (option row * list (outcome row)) :=
  match pending with
  | [] => ret (None, [])
  | Return r :: pending => ret (Some r, pending)
  | Raise e :: _ => raise e
  end.

(** The [while data_row:] loop, lines 287-291. *)
Fixpoint write_rows (fieldnames : option (list string)) (path : string)
  (data_row : row) (pending : list (outcome row))
  (count_table_rows count_records : nat) : M world (nat * nat) :=
  writerow fieldnames path data_row ;;
  let count_table_rows := S count_table_rows in
  let count_records := S count_records in
  match pending with
  | [] => ret (count_table_rows, count_records)
  | Raise e :: _ => raise e
  | Return r :: pending =>
      write_rows fieldnames path r pending count_table_rows count_records
  end.

(** Lines 273-293 of [export_table]: the query and the writing of the
    temporary file. *)
Definition unload (sql_text filetmp : string) : M world nat :=
  do stmt <- lift (d_prepare D sql_text);
  do tbcolumns <- get_columns stmt;
  do executed <- lift (st_execute stmt);
  do counts <-
    (if executed then
       do fetched <- fetch_assoc (st_rows stmt);
       open_w filetmp ;;
       do count_records <-
         (if _write_headers then writeheader tbcolumns filetmp ;; ret 1%nat else ret 0%nat);
       match fetched with
       | (None, _) => ret (0%nat, count_records)
       | (Some data_row, pending) =>
           write_rows tbcolumns filetmp data_row pending 0 count_records
       end
     else ret (0%nat, 0%nat));
  lift (st_free stmt) ;;
  ret (fst counts).

Definition sql_text (index_columns : option string) (schema tbname : string) : string :=
  if negb (bool_decide (default "" index_columns = "")) then
    "select * from " +:+ str_upper L schema +:+ "." +:+ str_upper L tbname
      +:+ " order by " +:+ default "" index_columns +:+ ";"
  else
    "select * from " +:+ str_upper L schema +:+ "." +:+ str_upper L tbname
      +:+ " order by 1;".

Definition filecsv (schema tbname : string) : string :=
  Path (str_lower L schema +:+ "-" +:+ str_lower L tbname +:+ ".csv").

Definition filetmp (schema tbname : string) : string :=
  Path ("tmp_" +:+ str_lower L schema +:+ "-" +:+ str_lower L tbname +:+ ".csv").

(** [export_table], lines 249-304 *)
Definition export_table (schema tbname : string) : M world bool :=
  do index_columns <- get_index schema tbname;
  let sql_text := sql_text index_columns schema tbname in
  let filecsv := filecsv schema tbname in
  let filetmp := filetmp schema tbname in
  try_except
    (do count_table_rows <- unload sql_text filetmp;
     print ("Table: " +:+ tbname +:+ " Rows: " +:+ pretty count_table_rows) ;;
     unlink filecsv ;;
     rename filetmp filecsv ;;
     ret true)
    (fun err => Some (print (str err) ;; db_error false ;; ret false)).

End Functions.

End ImportExport.

(** ** A small concrete library

    An instance of the interface that satisfies the contract, used to run
    the functions on concrete worlds: bytes and text correspond one to one,
    the digest and base64 are the identity, the derived key is the
    pass-phrase padded to the requested length, and a token is a version
    byte, the key and the plaintext. *)

Module Toy.

Definition ascii_lower (c : Ascii.ascii) : Ascii.ascii :=
  let n := Ascii.nat_of_ascii c in
  if ((65 <=? n) && (n <=? 90))%nat then Ascii.ascii_of_nat (n + 32) else c.

Fixpoint lower (s : string) : string :=
  match s with
  | EmptyString => EmptyString
  | String c s => String (ascii_lower c) (lower s)
  end.

Definition ascii_upper (c : Ascii.ascii) : Ascii.ascii :=
  let n := Ascii.nat_of_ascii c in
  if ((97 <=? n) && (n <=? 122))%nat then Ascii.ascii_of_nat (n - 32) else c.

Fixpoint upper (s : string) : string :=
  match s with
  | EmptyString => EmptyString
  | String c s => String (ascii_upper c) (upper s)
  end.

Definition pbkdf2 (a : hash_algorithm) (n : nat) (salt : bytes) (it : Z) (pw : bytes) : bytes :=
  take n (pw ++ replicate n Byte.x00).

Definition key_ok (k : bytes) : bool := bool_decide (length k = 32%nat).

Definition seal (k : bytes) (r : N) (m : bytes) : bytes := Byte.x80 :: k ++ m.

Definition unseal (k token : bytes) : option bytes :=
  match token with
  | v :: rest =>
      if bool_decide (v = Byte.x80) && bool_decide (take (length k) rest = k)
      then Some (drop (length k) rest)
      else None
  | [] => None
  end.

Definition lib : library := {|
  str_encode := String.list_byte_of_string;
  bytes_decode := fun b => Some (String.string_of_list_byte b);
  str_lower := lower;
  str_upper := upper;
  blake2b_hexdigest := String.string_of_list_byte;
  urlsafe_b64encode := fun b => b;
  os_urandom := fun n r => replicate n Byte.x41;
  PBKDF2HMAC := pbkdf2;
  fernet_key_ok := key_ok;
  fernet_encrypt := seal;
  fernet_decrypt := unseal;
|}.

Lemma lib_laws : library_laws lib.
Proof.
  split; simpl.
  - intros s. by rewrite String.string_of_list_byte_of_string.
  - intros b s [= <-]. apply String.list_byte_of_string_of_list_byte.
  - intros b. eauto.
  - intros b Hb. unfold key_ok. by apply bool_decide_eq_true.
  - intros a n salt it pw. unfold pbkdf2.
    rewrite length_take, length_app, length_replicate. lia.
  - intros n r. apply length_replicate.
  - intros k r m. eauto.
  - intros k r m _. unfold unseal, seal.
    rewrite take_app_length.
    rewrite (bool_decide_eq_true_2 (k = k)) by reflexivity.
    simpl. by rewrite drop_app_length.
  - intros k r m H. apply (f_equal length) in H. unfold seal in H.
    simpl in H. rewrite length_app in H. lia.
Qed.

End Toy.
Module KeyLifecycle.
Import Helpers.

Section Proofs.
Context (L : library) (P : process).

(** The key file exists, the process may read it, and it holds [d]. *)
Definition stored (w : world) (path : string) (d : gmap string pyval) : Prop :=
  exists f, w_files w !! path = Some f /\ may_read P f = true /\ f_data f = d.

Lemma pickle_load_stored w path d :
  stored w path d -> pickle_load P path w = (Return d, w).
Proof.
  intros (f & Hf & Hr & <-). unfold pickle_load. by rewrite Hf, Hr.
Qed.

(** Saving a key without generating one, on an existing key file. *)
Lemma db_keys_set_existing sk w f :
  w_files w !! _secretkeyfile P = Some f ->
  exists r w',
    db_keys_set L P sk false w = (Return r, w') /\
    w_default_secretkey w' = w_default_secretkey w /\
    w_entropy w' = w_entropy w /\
    w_stdin w' = w_stdin w /\
    ((may_write P f = false /\ r = ∅ /\ w_files w' = w_files w) \/
     (may_write P f = true /\ f_uid f <> p_euid P /\ r = ∅ /\
      w_files w' = <[_secretkeyfile P := File sk (f_mode f) (f_uid f) (f_gid f)]> (w_files w)) \/
     (may_write P f = true /\ f_uid f = p_euid P /\ r = sk /\
      w_files w' = <[_secretkeyfile P := File sk (Z.lor S_IRUSR S_IWUSR) (f_uid f) (f_gid f)]> (w_files w))).
Proof.
  intros Hf. unfold db_keys_set, bind, try_except, pickle_dump, os_chmod. cbn.
  rewrite Hf. destruct (may_write P f) eqn:Hw; cbn.
  - rewrite lookup_insert_eq. cbn. case_bool_decide; cbn.
    + do 2 eexists. split; [reflexivity|]. cbn. repeat split; try done.
      right; right. by rewrite insert_insert_eq.
    + do 2 eexists. split; [reflexivity|]. cbn. repeat split; try done.
      right; left. done.
  - do 2 eexists. split; [reflexivity|]. cbn. repeat split; try done. by left.
Qed.

Hypothesis laws : library_laws L.

Lemma password_key_ok p : fernet_key_ok L (password_to_key L p) = true.
Proof. unfold password_to_key. apply b64_key; [done|]. by apply pbkdf2_length. Qed.

Lemma may_read_owner_rw d u g : u = p_euid P -> may_read P (File d (Z.lor S_IRUSR S_IWUSR) u g) = true.
Proof. intros ->. unfold may_read, perm_shift. cbn. by rewrite bool_decide_eq_true_2. Qed.

Lemma may_write_owner_rw d u g : u = p_euid P -> may_write P (File d (Z.lor S_IRUSR S_IWUSR) u g) = true.
Proof. intros ->. unfold may_write, perm_shift. cbn. by rewrite bool_decide_eq_true_2. Qed.


#[local] Arguments password_to_key : simpl never.
#[local] Arguments blake2b_hex : simpl never.
#[local] Arguments _secretkeyfile : simpl never.
#[local] Arguments settings_file : simpl never.
#[local] Arguments may_read : simpl never.
#[local] Arguments may_write : simpl never.

#[local] Arguments db_keys_set : simpl never.
#[local] Arguments db_keys_get : simpl never.

Ltac py_unfold :=
  unfold db_keys_lock, db_keys_unlock, db_load_settings, db_save_settings,
    bind, try_except, ret, raise, getitem, encode, decode, lower, Fernet, encrypt, decrypt,
    fresh, generate_key, print, getpass, supplied, dict_truthy, get_default_secretkey,
    put_default_secretkey.


Tactic Notation "py_run" tactic3(t) := py_unfold; repeat (progress (cbn; t)).

Definition locked_record (sk : gmap string pyval) (tok p : string) : gmap string pyval :=
  <["hash" := VStr (blake2b_hex L p)]> (<["locked" := VBool true]> (<["secret" := VStr tok]> sk)).

Definition unlocked_record (lk : gmap string pyval) (sec : string) : gmap string pyval :=
  <["locked" := VBool false]> (<["secret" := VStr sec]> lk).

(** What [db_keys_set(secretkey, False)] leaves at the key file [f]: nothing
    new when the write is refused, else [sk] under the old mode (when
    [chmod] is refused) or under owner read and write. *)
Definition key_file_after (f : file) (sk : gmap string pyval) (fs fs' : gmap string file) : Prop :=
  (may_write P f = false /\ fs' = fs) \/
  (may_write P f = true /\
   exists m, fs' = <[_secretkeyfile P := File sk m (f_uid f) (f_gid f)]> fs /\
     ((m = f_mode f /\ f_uid f <> p_euid P) \/
      (m = Z.lor S_IRUSR S_IWUSR /\ f_uid f = p_euid P))).

Lemma db_keys_set_after sk w f :
  w_files w !! _secretkeyfile P = Some f ->
  exists r w',
    db_keys_set L P sk false w = (Return r, w') /\
    w_entropy w' = w_entropy w /\
    key_file_after f sk (w_files w) (w_files w').
Proof.
  intros Hf. destruct (db_keys_set_existing sk w f Hf)
    as (r & w' & Hrun & _ & He & _ & [(Hw & _ & Hfs)|[(Hw & Hu & _ & Hfs)|(Hw & Hu & _ & Hfs)]]);
    exists r, w'; (split; [done|]); (split; [done|]); unfold key_file_after.
  - by left.
  - right. split; [done|]. eexists. split; [done|]. by left.
  - right. split; [done|]. eexists. split; [done|]. by right.
Qed.

Lemma lock_unlocked w f sec p :
  w_files w !! _secretkeyfile P = Some f ->
  may_read P f = true ->
  f_data f !! "locked" = Some (VBool false) ->
  f_data f !! "secret" = Some (VStr sec) ->
  p <> "" ->
  exists tok w1,
    bytes_decode L (fernet_encrypt L (password_to_key L p) (w_entropy w) (str_encode L sec))
      = Some tok /\
    db_keys_lock L P (Some p) w = (Return true, w1) /\
    key_file_after f (locked_record (f_data f) tok p) (w_files w) (w_files w1).
Proof.
  intros Hf Hr Hl Hsec Hp.
  destruct (token_text L laws (password_to_key L p) (w_entropy w) (str_encode L sec))
    as [tok Htok].
  assert (Hload : pickle_load P (_secretkeyfile P) w = (Return (f_data f), w)).
  { apply pickle_load_stored. by exists f. }
  assert (Hpe : bool_decide (p = "") = false) by by apply bool_decide_eq_false_2.
  pose proof (password_key_ok p) as Hk.
  exists tok. py_run (rewrite ?Hload, ?Hl, ?Hpe, ?Hk, ?Hsec, ?Htok).
  match goal with
  | |- context [db_keys_set L P ?d false ?w0] =>
      destruct (db_keys_set_after d w0 f Hf) as (r & w' & -> & _ & Hafter)
  end.
  cbn. eexists. split; [done|]. split; [done|]. exact Hafter.
Qed.


Lemma unlock_unlocked pw w f :
  w_files w !! _secretkeyfile P = Some f ->
  may_read P f = true ->
  f_data f !! "locked" = Some (VBool false) ->
  exists w', db_keys_unlock L P pw w = (Return true, w') /\ w_files w' = w_files w.
Proof.
  intros Hf Hr Hl.
  assert (Hload : pickle_load P (_secretkeyfile P) w = (Return (f_data f), w)).
  { apply pickle_load_stored. by exists f. }
  py_run (rewrite ?Hload, ?Hl). eauto.
Qed.

Lemma unlock_locked w f lv tok m sec p :
  w_files w !! _secretkeyfile P = Some f ->
  may_read P f = true ->
  f_data f !! "locked" = Some lv -> truthy lv = true ->
  f_data f !! "hash" = Some (VStr (blake2b_hex L p)) ->
  f_data f !! "secret" = Some (VStr tok) ->
  fernet_decrypt L (password_to_key L p) (str_encode L tok) = Some m ->
  bytes_decode L m = Some sec ->
  p <> "" ->
  exists w2,
    db_keys_unlock L P (Some p) w = (Return true, w2) /\
    key_file_after f (unlocked_record (f_data f) sec) (w_files w) (w_files w2).
Proof.
  intros Hf Hr Hl Hlv Hh Hsec Hdec Hm Hp.
  assert (Hload : pickle_load P (_secretkeyfile P) w = (Return (f_data f), w)).
  { apply pickle_load_stored. by exists f. }
  assert (Hpe : bool_decide (p = "") = false) by by apply bool_decide_eq_false_2.
  pose proof (password_key_ok p) as Hk.
  py_run (rewrite ?Hload, ?Hl, ?Hlv, ?Hpe, ?Hh, ?Hk, ?Hsec, ?Hdec, ?Hm,
            ?(bool_decide_eq_true_2 (VStr (blake2b_hex L p) = VStr (blake2b_hex L p))) by done).
  match goal with
  | |- context [db_keys_set L P ?d false ?w0] =>
      destruct (db_keys_set_after d w0 f Hf) as (r & w' & -> & _ & Hafter)
  end.
  cbn. eexists. split; [done|]. exact Hafter.
Qed.

Lemma may_read_same_mode d d' m u g :
  may_read P (File d' m u g) = may_read P (File d m u g).
Proof. reflexivity. Qed.

Lemma may_write_same_mode d d' m u g :
  may_write P (File d' m u g) = may_write P (File d m u g).
Proof. reflexivity. Qed.

(** A key file rewritten by [db_keys_set] stays readable and writable. *)
Lemma key_file_after_written f sk fs fs' :
  may_read P f = true -> may_write P f = true ->
  key_file_after f sk fs fs' ->
  exists f', fs' = <[_secretkeyfile P := f']> fs /\ f_data f' = sk /\
    may_read P f' = true /\ may_write P f' = true.
Proof.
  intros Hr Hw [[Hn _]|[_ (m & -> & Hm)]]; [congruence|].
  eexists. split; [done|]. split; [done|].
  destruct f as [d fm u g]. cbn in *.
  destruct Hm as [[-> _]|[-> Hu]].
  - by rewrite (may_read_same_mode d), (may_write_same_mode d).
  - by rewrite may_read_owner_rw, may_write_owner_rw.
Qed.

(** C1.  On a key file whose record is unlocked and holds a secret, locking
    with a non-empty pass-phrase and then unlocking with the same one both
    return [True], and the record stored at the end has the original
    plaintext secret and ["locked"] false. *)
Theorem lock_unlock_roundtrip w sk sec p :
  stored w (_secretkeyfile P) sk ->
  sk !! "locked" = Some (VBool false) ->
  sk !! "secret" = Some (VStr sec) ->
  p <> "" ->
  exists w1 w2 sk',
    db_keys_lock L P (Some p) w = (Return true, w1) /\
    db_keys_unlock L P (Some p) w1 = (Return true, w2) /\
    stored w2 (_secretkeyfile P) sk' /\
    sk' !! "secret" = Some (VStr sec) /\
    sk' !! "locked" = Some (VBool false).
Proof.
  intros (f & Hf & Hr & <-) Hl Hsec Hp.
  destruct (lock_unlocked w f sec p Hf Hr Hl Hsec Hp) as (tok & w1 & Htok & Hlock & Hafter).
  exists w1.
  destruct (may_write P f) eqn:Hw.
  - destruct (key_file_after_written _ _ _ _ Hr Hw Hafter) as (f1 & Hfs1 & Hd1 & Hr1 & Hw1).
    assert (Hf1 : w_files w1 !! _secretkeyfile P = Some f1).
    { rewrite Hfs1. apply lookup_insert_eq. }
    destruct (unlock_locked w1 f1 (VBool true) tok (str_encode L sec) sec p) as (w2 & Hun & Hafter2);
      try done.
    + rewrite Hd1. unfold locked_record. by simplify_map_eq.
    + rewrite Hd1. unfold locked_record. by simplify_map_eq.
    + rewrite Hd1. unfold locked_record. by simplify_map_eq.
    + rewrite (encode_decode L laws _ _ Htok). apply (fernet_roundtrip L laws), password_key_ok.
    + apply (decode_encode L laws).
    + destruct (key_file_after_written _ _ _ _ Hr1 Hw1 Hafter2) as (f2 & Hfs2 & Hd2 & Hr2 & _).
      exists w2, (f_data f2). split; [done|]. split; [done|]. split.
      * exists f2. split; [|done]. rewrite Hfs2. apply lookup_insert_eq.
      * rewrite Hd2. unfold unlocked_record. by simplify_map_eq.
  - destruct Hafter as [[_ Hfs]|[? _]]; [|congruence].
    destruct (unlock_unlocked (Some p) w1 f) as (w2 & Hun & Hfs2); try done.
    { by rewrite Hfs. }
    exists w2, (f_data f). split; [done|]. split; [done|]. split; [|done].
    exists f. split; [|done]. by rewrite Hfs2, Hfs.
Qed.

Lemma lock_locked pw w f lv :
  w_files w !! _secretkeyfile P = Some f ->
  may_read P f = true ->
  f_data f !! "locked" = Some lv -> truthy lv = true ->
  exists w', db_keys_lock L P pw w = (Return true, w') /\ w_files w' = w_files w.
Proof.
  intros Hf Hr Hl Hlv.
  assert (Hload : pickle_load P (_secretkeyfile P) w = (Return (f_data f), w)).
  { apply pickle_load_stored. by exists f. }
  py_run (rewrite ?Hload, ?Hl, ?Hlv). eauto.
Qed.

(** C10.  Locking a key file whose record is already locked, and unlocking
    one whose record is already unlocked, return [True] and leave the files
    as they are, whatever pass-phrase is given. *)
Theorem lock_unlock_idempotent pw w sk :
  stored w (_secretkeyfile P) sk ->
  (sk !! "locked" = Some (VBool true) ->
   exists w', db_keys_lock L P pw w = (Return true, w') /\ w_files w' = w_files w) /\
  (sk !! "locked" = Some (VBool false) ->
   exists w', db_keys_unlock L P pw w = (Return true, w') /\ w_files w' = w_files w).
Proof.
  intros (f & Hf & Hr & <-). split; intros Hl.
  - by apply (lock_locked pw w f (VBool true)).
  - by apply unlock_unlocked with f.
Qed.

(** C5, as amended.  On a locked key file, a non-empty pass-phrase whose
    digest is not the stored ["hash"] makes [db_keys_unlock] return [False]
    and leaves every file as it is. *)
Theorem unlock_wrong_passphrase w lk lv p :
  stored w (_secretkeyfile P) lk ->
  lk !! "locked" = Some lv -> truthy lv = true ->
  p <> "" ->
  lk !! "hash" <> Some (VStr (blake2b_hex L p)) ->
  exists w', db_keys_unlock L P (Some p) w = (Return false, w') /\ w_files w' = w_files w.
Proof.
  intros Hs Hl Hlv Hp Hh.
  pose proof (pickle_load_stored _ _ _ Hs) as Hload.
  assert (Hpe : bool_decide (p = "") = false) by by apply bool_decide_eq_false_2.
  py_run (rewrite ?Hload, ?Hl, ?Hlv, ?Hpe).
  destruct (lk !! "hash") as [h|] eqn:Hhash; cbn; [|eauto].
  rewrite bool_decide_eq_false_2 by congruence. cbn. eauto.
Qed.

(** C4, as amended.  On a locked key file and a non-empty supplied
    password, [db_keys_get] decrypts the stored token under the password's
    key whatever the digest comparison said: when the file was locked with
    that password it returns the record with the plaintext secret and
    ["locked"] false; when Fernet rejects the token under the password's key
    it raises [InvalidToken] and returns no record.  In both cases every
    file is left as it is. *)
Theorem keys_get_locked w f lv tok pw prompt :
  w_files w !! _secretkeyfile P = Some f ->
  may_read P f = true ->
  f_data f !! "locked" = Some lv -> truthy lv = true ->
  f_data f !! "secret" = Some (VStr tok) ->
  is_Some (f_data f !! "hash") ->
  pw <> "" ->
  (forall sec r,
     bytes_decode L (fernet_encrypt L (password_to_key L pw) r (str_encode L sec)) = Some tok ->
     exists w',
       db_keys_get L P (Some pw) prompt w = (Return (unlocked_record (f_data f) sec), w') /\
       unlocked_record (f_data f) sec !! "secret" = Some (VStr sec) /\
       unlocked_record (f_data f) sec !! "locked" = Some (VBool false) /\
       w_files w' = w_files w) /\
  (fernet_decrypt L (password_to_key L pw) (str_encode L tok) = None ->
   exists w',
     db_keys_get L P (Some pw) prompt w = (Raise InvalidToken, w') /\
     w_files w' = w_files w).
Proof.
  intros Hf Hr Hl Hlv Hsec [h Hh] Hp.
  assert (Hload : pickle_load P (_secretkeyfile P) w = (Return (f_data f), w)).
  { apply pickle_load_stored. by exists f. }
  assert (Hpe : bool_decide (pw = "") = false) by by apply bool_decide_eq_false_2.
  pose proof (password_key_ok pw) as Hk.
  split.
  - intros sec r Htok.
    assert (Hdec : fernet_decrypt L (password_to_key L pw) (str_encode L tok)
                   = Some (str_encode L sec)).
    { rewrite (encode_decode L laws _ _ Htok). by apply (fernet_roundtrip L laws). }
    pose proof (decode_encode L laws sec) as Hm.
    unfold db_keys_get. py_run (rewrite ?Hload, ?Hl, ?Hlv, ?Hpe, ?Hh).
    destruct (bool_decide (h = VStr (blake2b_hex L pw)));
      py_run (rewrite ?Hk, ?Hsec, ?Hdec, ?Hm);
      (eexists; split; [reflexivity|]); unfold unlocked_record; by simplify_map_eq.
  - intros Hdec.
    unfold db_keys_get. py_run (rewrite ?Hload, ?Hl, ?Hlv, ?Hpe, ?Hh).
    destruct (bool_decide (h = VStr (blake2b_hex L pw)));
      py_run (rewrite ?Hk, ?Hsec, ?Hdec); eauto.
Qed.

Lemma getitem_Return (d : gmap string pyval) k (w : world) v w' :
  getitem d k w = (Return v, w') -> d !! k = Some v /\ w' = w.
Proof. unfold getitem. destruct (d !! k); cbn; intros [= <- <-]; done. Qed.

Lemma encode_Return x w b w' :
  encode L x w = (Return b, w') -> exists s, x = VStr s /\ b = str_encode L s /\ w' = w.
Proof. destruct x; cbn; intros [= <- <-]; eauto. Qed.

Lemma lower_Return x w t w' :
  lower L x w = (Return t, w') -> exists s, x = VStr s /\ t = str_lower L s /\ w' = w.
Proof. destruct x; cbn; intros [= <- <-]; eauto. Qed.

Lemma decode_Return b w s w' :
  decode L b w = (Return s, w') -> bytes_decode L b = Some s /\ w' = w.
Proof. unfold decode. destruct (bytes_decode L b); cbn; intros [= <- <-]; done. Qed.

Lemma Fernet_Return key w k w' :
  Fernet L key w = (Return k, w') -> fernet_key_ok L key = true /\ k = key /\ w' = w.
Proof. unfold Fernet. destruct (fernet_key_ok L key); cbn; intros [= <- <-]; done. Qed.

Lemma decrypt_Return k t w m w' :
  decrypt L k t w = (Return m, w') -> fernet_decrypt L k t = Some m /\ w' = w.
Proof. unfold decrypt. destruct (fernet_decrypt L k t); cbn; intros [= <- <-]; done. Qed.

Lemma encrypt_Return k m w t w' :
  encrypt L k m w = (Return t, w') ->
  t = fernet_encrypt L k (w_entropy w) m /\ w_files w' = w_files w.
Proof. cbn. intros [= <- <-]. done. Qed.

(** Writing a file and restricting it to its owner, as both [db_keys_set]
    and [db_save_settings] do: when both steps succeed the file holds the
    object under mode [S_IRUSR | S_IWUSR], the process owns it, and every
    other file is untouched. *)
Lemma dump_Return obj path w w' :
  pickle_dump P obj path w = (Return tt, w') ->
  (exists f, w_files w' = <[path := f]> (w_files w) /\ f_data f = obj).
Proof.
  unfold pickle_dump. repeat case_match; intros [= <-]; cbn; eauto.
Qed.

Lemma chmod_Return path mode w w' :
  os_chmod P path mode w = (Return tt, w') ->
  exists f, w_files w !! path = Some f /\ f_uid f = p_euid P /\
    w_files w' = <[path := File (f_data f) mode (f_uid f) (f_gid f)]> (w_files w).
Proof.
  unfold os_chmod. repeat case_match; intros [= <-]; cbn.
  eexists. split; [done|]. split; [|done]. by eapply bool_decide_eq_true_1.
Qed.

Definition owner_only (f : file) : Prop :=
  f_mode f = Z.lor S_IRUSR S_IWUSR /\ f_uid f = p_euid P.

Lemma guarded_true (body : M world unit) handler w w' :
  try_except (body ;; ret true) handler w = (Return true, w') ->
  (forall e h w1 w2 b, handler e = Some h -> h w1 = (Return b, w2) -> b = false) ->
  body w = (Return tt, w').
Proof.
  intros H Hh. apply try_except_Return in H as [H|(e & w1 & h & _ & He & H)].
  - apply bind_Return in H as ([] & w1 & H & [= <-]). done.
  - by specialize (Hh _ _ _ _ _ He H).
Qed.

Ltac handler_false :=
  let e := fresh "e" in
  let H := fresh "H" in
  intros e ? ? ? ? ?; destruct e; simplify_eq; cbn; intros H; by injection H.

Lemma dump_chmod_owner_only obj path w1 w2 w3 :
  pickle_dump P obj path w1 = (Return tt, w2) ->
  os_chmod P path (Z.lor S_IRUSR S_IWUSR) w2 = (Return tt, w3) ->
  exists f, w_files w3 = <[path := f]> (w_files w1) /\ f_data f = obj /\ owner_only f.
Proof.
  intros Hd Hc. apply dump_Return in Hd as (f & Hfs & Hdata).
  apply chmod_Return in Hc as (f' & Hf' & Hu & Hfs').
  rewrite Hfs, lookup_insert_eq in Hf'. injection Hf' as <-.
  eexists. split; [|split; [|split]].
  - rewrite Hfs', Hfs. apply insert_insert_eq.
  - done.
  - done.
  - done.
Qed.

Lemma db_keys_set_Return sk nk w r w' :
  db_keys_set L P sk nk w = (Return r, w') -> r <> ∅ ->
  exists f, w_files w' !! _secretkeyfile P = Some f /\ f_data f = r /\ owner_only f.
Proof.
  unfold db_keys_set. intros H Hr.
  apply bind_Return in H as (sk1 & w1 & _ & H).
  apply bind_Return in H as (written & w2 & Hw & H).
  destruct written; cbn in H; [|by injection H as <- <-].
  apply bind_Return in H as (moded & w3 & Hm & H).
  destruct moded; cbn in H; injection H as <- <-; [|done].
  apply guarded_true in Hw; [|handler_false].
  apply guarded_true in Hm; [|handler_false].
  destruct (dump_chmod_owner_only _ _ _ _ _ Hw Hm) as (f & Hfs & Hd & Ho).
  exists f. split; [|done]. rewrite Hfs. apply lookup_insert_eq.
Qed.

(** The key [db_save_settings] works with (lines 427-430): the record
    [db_keys_get] returned when it holds a secret, else the record of a key
    generated on the spot. *)
Definition obtains_key (pw : option string) (w : world)
  (keys : gmap string pyval) (w1 : world) : Prop :=
  exists keys0 w0,
    db_keys_get L P pw true w = (Return keys0, w0) /\
    ((keys = keys0 /\ w1 = w0 /\
      exists v, keys0 !! "secret" = Some v /\ truthy v = true) \/
     ((forall v, keys0 !! "secret" = Some v -> truthy v = false) /\
      exists d w0', w_files w0' = w_files w0 /\
        db_keys_set L P d true w0' = (Return keys, w1))).

Lemma guarded_false (body : M world unit) handler w w' :
  try_except (body ;; ret true) handler w = (Return false, w') ->
  (forall e h, handler e = Some h -> exists line, h = (print line ;; ret false)) ->
  (forall e w1, body w = (Raise e, w1) -> w1 = w) ->
  w_files w' = w_files w.
Proof.
  intros H Hh Hb. apply try_except_Return in H as [H|(e & w1 & h & Hr & He & H)].
  - by apply bind_Return in H as ([] & w1 & H & [= <-]).
  - destruct (Hh _ _ He) as [line ->]. injection H as <-. cbn.
    unfold bind in Hr. destruct (body w) as [[a|e'] w2] eqn:Hbody; [discriminate|].
    injection Hr as <- <-. by rewrite (Hb _ _ eq_refl).
Qed.

Lemma guarded_Raise (body : M world unit) handler w e w' :
  try_except (body ;; ret true) handler w = (Raise e, w') ->
  (forall e h, handler e = Some h -> exists line, h = (print line ;; ret false)) ->
  (forall e w1, body w = (Raise e, w1) -> w1 = w) ->
  w_files w' = w_files w.
Proof.
  intros H Hh Hb. unfold try_except, bind in H.
  destruct (body w) as [[a|e'] w1] eqn:Hbody; [done|].
  rewrite (Hb _ _ eq_refl) in H.
  destruct (handler e') as [h|] eqn:He.
  - by destruct (Hh _ _ He) as [line ->].
  - by injection H as <- <-.
Qed.

Ltac handler_print :=
  let e := fresh "e" in
  intros e ? ?; destruct e; simplify_eq; eauto.

Lemma dump_Raise obj path w e w' : pickle_dump P obj path w = (Raise e, w') -> w' = w.
Proof. unfold pickle_dump. repeat case_match; by intros [= <-]. Qed.

Lemma chmod_Raise path mode w e w' : os_chmod P path mode w = (Raise e, w') -> w' = w.
Proof. unfold os_chmod. repeat case_match; by intros [= <-]. Qed.

(** What a returning [db_save_settings] has done: it obtained a key, sealed
    the password under it, and either stored the sealed record owner-only
    ([True]), or was refused the write, or stored it and was refused the
    [chmod] ([False]). *)
Lemma save_settings_Return s pw w b w' :
  db_save_settings L P s pw w = (Return b, w') ->
  exists keys w1 kh sec plain tok e h d,
    obtains_key pw w keys w1 /\
    keys !! "secrethash" = Some kh /\
    keys !! "secret" = Some (VStr sec) /\
    fernet_key_ok L (str_encode L sec) = true /\
    s !! "pwd" = Some (VStr plain) /\
    bytes_decode L (fernet_encrypt L (str_encode L sec) (w_entropy w1) (str_encode L plain))
      = Some tok /\
    s !! "environment" = Some (VStr e) /\
    s !! "hostname" = Some (VStr h) /\
    s !! "database" = Some (VStr d) /\
    let fname := settings_file (str_lower L e) (str_lower L h) (str_lower L d) in
    let sealed := <["pwd" := VStr tok]> (<["secrethash" := kh]> s) in
    (b = true /\
     exists f, w_files w' = <[fname := f]> (w_files w1) /\ f_data f = sealed /\ owner_only f) \/
    (b = false /\
     (w_files w' = w_files w1 \/
      exists f, w_files w' = <[fname := f]> (w_files w1) /\ f_data f = sealed)).
Proof.
  unfold db_save_settings. intros H.
  apply bind_Return in H as (keys0 & w0 & Hget & H).
  apply bind_Return in H as (keys & w1 & Hkeys & H).
  assert (Hobt : obtains_key pw w keys w1).
  { exists keys0, w0. split; [done|].
    destruct (negb (dict_truthy keys0) || negb (bool_decide (is_Some (keys0 !! "secret")))
              || negb (truthy (default VNone (keys0 !! "secret")))) eqn:Hc.
    - right. apply bind_Return in Hkeys as ([] & w0' & Hp & Hkeys).
      apply bind_Return in Hkeys as (d & w0'' & [= <- <-] & Hkeys).
      injection Hp as <-. split; [|do 2 eexists; split; [|exact Hkeys]; done].
      intros v Hv. rewrite Hv in Hc. cbn in Hc.
      unfold dict_truthy in Hc.
      rewrite (bool_decide_eq_false_2 (keys0 = ∅)) in Hc.
      * cbn in Hc. by apply negb_true_iff in Hc.
      * intros ->. by rewrite lookup_empty in Hv.
    - left. injection Hkeys as <- <-. split; [done|]. split; [done|].
      apply orb_false_elim in Hc as [Hc Ht]. apply negb_false_iff in Ht.
      destruct (keys0 !! "secret") as [v|]; [eauto | done]. }
  clear Hget Hkeys.
  apply bind_Return in H as (kh & ? & (Hkh & ->)%getitem_Return & H).
  apply bind_Return in H as (ksec & ? & (Hksec & ->)%getitem_Return & H).
  apply bind_Return in H as (kraw & ? & (sec & -> & -> & ->)%encode_Return & H).
  apply bind_Return in H as (k & ? & (Hok & -> & ->)%Fernet_Return & H).
  apply bind_Return in H as (pwd & ? & (Hpwd & ->)%getitem_Return & H).
  apply bind_Return in H as (raw & ? & (plain & -> & -> & ->)%encode_Return & H).
  apply bind_Return in H as (token & w2 & (-> & Hfs2)%encrypt_Return & H).
  apply bind_Return in H as (tok & ? & (Htok & ->)%decode_Return & H).
  apply bind_Return in H as (e0 & ? & (He & ->)%getitem_Return & H).
  apply bind_Return in H as (e' & ? & (e & -> & -> & ->)%lower_Return & H).
  apply bind_Return in H as (h0 & ? & (Hh & ->)%getitem_Return & H).
  apply bind_Return in H as (h' & ? & (h & -> & -> & ->)%lower_Return & H).
  apply bind_Return in H as (d0 & ? & (Hd & ->)%getitem_Return & H).
  apply bind_Return in H as (d' & ? & (d & -> & -> & ->)%lower_Return & H).
  rewrite lookup_insert_ne in Hpwd by done.
  rewrite !lookup_insert_ne in He, Hh, Hd by done.
  exists keys, w1, kh, sec, plain, tok, e, h, d.
  do 9 (split; [done|]). cbn zeta.
  apply bind_Return in H as (written & w3 & Hw & H).
  destruct written; cbn in H.
  - apply guarded_true in Hw; [|handler_false].
    apply bind_Return in H as (moded & w4 & Hm & H).
    destruct moded; cbn in H; injection H as <- <-.
    + apply guarded_true in Hm; [|handler_false].
      destruct (dump_chmod_owner_only _ _ _ _ _ Hw Hm) as (f & Hfs & Hdata & Ho).
      left. split; [done|]. exists f. by rewrite <- Hfs2.
    + apply guarded_false in Hm; [|handler_print|apply chmod_Raise].
      apply dump_Return in Hw as (f & Hfs & Hdata).
      right. split; [done|]. right. exists f. by rewrite Hm, Hfs, Hfs2.
  - injection H as <- <-.
    apply guarded_false in Hw; [|handler_print|apply dump_Raise].
    right. split; [done|]. left. by rewrite Hw.
Qed.


(** *** What the functions write

    Apart from [pickle_dump] and [os.chmod], no primitive touches a file. *)
Definition files_same {A} (m : M world A) : Prop :=
  forall w o w', m w = (o, w') -> w_files w' = w_files w.

Lemma files_same_ow {A} (m : M world A) tmp : files_same m -> only_writes w_files tmp m.
Proof. intros Hm w o w' H path _. by rewrite (Hm _ _ _ H). Qed.

Lemma fs_getitem d k : files_same (getitem d k).
Proof. unfold getitem. by destruct (d !! k); intros w o w' [= <- <-]. Qed.

Lemma fs_print line : files_same (print line).
Proof. by intros w o w' [= <- <-]. Qed.

Lemma fs_getpass : files_same getpass.
Proof. intros w o w'. unfold getpass. by destruct (w_stdin w); intros [= <- <-]. Qed.

Lemma fs_fresh : files_same fresh.
Proof. by intros w o w' [= <- <-]. Qed.

Lemma fs_get_default : files_same get_default_secretkey.
Proof. by intros w o w' [= <- <-]. Qed.

Lemma fs_put_default d : files_same (put_default_secretkey d).
Proof. by intros w o w' [= <- <-]. Qed.

Lemma fs_encode x : files_same (encode L x).
Proof. by destruct x; intros w o w' [= <- <-]. Qed.

Lemma fs_decode b : files_same (decode L b).
Proof. unfold decode. by destruct (bytes_decode L b); intros w o w' [= <- <-]. Qed.

Lemma fs_lower x : files_same (lower L x).
Proof. by destruct x; intros w o w' [= <- <-]. Qed.

Lemma fs_Fernet key : files_same (Fernet L key).
Proof. unfold Fernet. by destruct (fernet_key_ok L key); intros w o w' [= <- <-]. Qed.

Lemma fs_encrypt k m : files_same (encrypt L k m).
Proof. by intros w o w' [= <- <-]. Qed.

Lemma fs_decrypt k t : files_same (decrypt L k t).
Proof. unfold decrypt. by destruct (fernet_decrypt L k t); intros w o w' [= <- <-]. Qed.

Lemma fs_generate_key : files_same (generate_key L).
Proof. by intros w o w' [= <- <-]. Qed.

Lemma fs_pickle_load path : files_same (pickle_load P path).
Proof. intros w o w'. unfold pickle_load. by repeat case_match; intros [= <- <-]. Qed.

Lemma ow_pickle_dump obj path : only_writes w_files path (pickle_dump P obj path).
Proof.
  intros w o w' H p Hp. unfold pickle_dump in H.
  repeat case_match; injection H as <- <-; cbn; by rewrite ?lookup_insert_ne.
Qed.

Lemma ow_os_chmod path mode : only_writes w_files path (os_chmod P path mode).
Proof.
  intros w o w' H p Hp. unfold os_chmod in H.
  repeat case_match; injection H as <- <-; cbn; by rewrite ?lookup_insert_ne.
Qed.

Create HintDb fs discriminated.
#[local] Hint Resolve fs_getitem fs_print fs_getpass fs_fresh fs_get_default fs_put_default
  fs_encode fs_decode fs_lower fs_Fernet fs_encrypt fs_decrypt fs_generate_key
  fs_pickle_load : fs.
#[local] Hint Resolve files_same_ow ow_pickle_dump ow_os_chmod : ow.

Local Abbreviation only_key_file := (only_writes w_files (_secretkeyfile P)).

Ltac ow_auto := repeat first
  [ apply ow_bind; [|intros ?]
  | apply ow_ret | apply ow_raise | apply ow_pickle_dump | apply ow_os_chmod
  | apply files_same_ow; solve [auto with fs]
  | match goal with |- only_writes _ _ (if ?c then _ else _) => destruct c end
  | match goal with |- only_writes _ _ (match ?x with _ => _ end) => destruct x end ].

Lemma ow_db_keys_set sk nk : only_key_file (db_keys_set L P sk nk).
Proof.
  unfold db_keys_set. apply ow_bind; [ow_auto|]. intros secretkey.
  apply ow_bind.
  { apply ow_try; [ow_auto|]. intros e h He. destruct e; simplify_eq; ow_auto. }
  intros written. destruct written; cbn; [|ow_auto].
  apply ow_bind; [|intros []; ow_auto].
  apply ow_try; [ow_auto|]. intros e h He. destruct e; simplify_eq; ow_auto.
Qed.

Lemma ow_prompt_loop fuel :
  forall attempts sk passphrase, only_key_file (prompt_loop L fuel attempts sk passphrase).
Proof.
  induction fuel as [|fuel IH]; intros attempts sk passphrase; cbn; [ow_auto|].
  apply ow_bind; [ow_auto|]. intros typed.
  apply ow_bind; [ow_auto|]. intros h.
  match goal with |- only_writes _ _ (if ?c then _ else _) => destruct c end;
    [apply IH | ow_auto].
Qed.

Lemma ow_db_keys_get pw prompt : only_key_file (db_keys_get L P pw prompt).
Proof.
  unfold db_keys_get. apply ow_try.
  - apply ow_bind; [ow_auto|]. intros sk.
    apply ow_bind; [ow_auto|]. intros locked.
    destruct (truthy locked); [|ow_auto].
    apply ow_bind; [|intros ?; ow_auto].
    destruct (supplied pw); [ow_auto|].
    destruct prompt; [|ow_auto].
    apply ow_bind; [ow_auto|]. intros _.
    apply ow_bind; [ow_auto|]. intros _. apply ow_prompt_loop.
  - intros e h He. destruct e; simplify_eq.
    apply ow_bind; [ow_auto|]. intros _.
    apply ow_bind; [ow_auto|]. intros d. apply ow_db_keys_set.
Qed.

(** One statement of [db_save_settings] that touches no file: either it
    raised, and the run ends where it started, or the run goes on. *)
Ltac quiet_step H a Hs :=
  apply bind_cases in H as [(a & ? & Hs & H)|(? & Hs & ->)];
  [ | left; split; [done|];
      first [ apply fs_getitem in Hs | apply fs_encode in Hs | apply fs_decode in Hs
            | apply fs_lower in Hs | apply fs_Fernet in Hs | apply fs_encrypt in Hs ];
      congruence ].

(** After the key is there, [db_save_settings] either writes nothing or
    leaves the sealed record in one file. *)
Lemma save_settings_tail (s keys : gmap string pyval) (w1 : world) o w'
  (tail : M world bool) :
  tail =
    (let use_settings := s in
     do kh <- getitem keys "secrethash";
     let use_settings := <["secrethash" := kh]> use_settings in
     do ksec <- getitem keys "secret";
     do kraw <- encode L ksec;
     do k <- Fernet L kraw;
     do pwd <- getitem use_settings "pwd";
     do raw <- encode L pwd;
     do token <- encrypt L k raw;
     do text <- decode L token;
     let use_settings := <["pwd" := VStr text]> use_settings in
     do e <- getitem use_settings "environment";
     do e <- lower L e;
     do h <- getitem use_settings "hostname";
     do h <- lower L h;
     do d <- getitem use_settings "database";
     do d <- lower L d;
     let fname := settings_file e h d in
     do written <-
       try_except
         (pickle_dump P use_settings fname ;; ret true)
         (fun e =>
            match e with
            | PermissionError =>
                Some (print "Failed trying to write credentials file." ;; ret false)
            | _ => None
            end);
     if negb written then ret false else
     do moded <-
       try_except
         (os_chmod P fname (Z.lor S_IRUSR S_IWUSR) ;; ret true)
         (fun e =>
            match e with
            | PermissionError =>
                Some (print "Failed setting permissions on credentials file." ;; ret false)
            | _ => None
            end);
     if negb moded then ret false else
     ret true) ->
  tail w1 = (o, w') ->
  (o <> Return true /\ w_files w' = w_files w1) \/
  exists kh sec plain tok fname f,
    keys !! "secrethash" = Some kh /\
    keys !! "secret" = Some (VStr sec) /\
    s !! "pwd" = Some (VStr plain) /\
    bytes_decode L (fernet_encrypt L (str_encode L sec) (w_entropy w1) (str_encode L plain))
      = Some tok /\
    tok <> plain /\
    w_files w' = <[fname := f]> (w_files w1) /\
    f_data f = <["pwd" := VStr tok]> (<["secrethash" := kh]> s).
Proof.
  intros -> H. cbn zeta in H.
  quiet_step H kh Hs. apply getitem_Return in Hs as (Hkh & ->).
  quiet_step H ksec Hs. apply getitem_Return in Hs as (Hksec & ->).
  quiet_step H kraw Hs. apply encode_Return in Hs as (sec & -> & -> & ->).
  quiet_step H k Hs. apply Fernet_Return in Hs as (Hok & -> & ->).
  quiet_step H pwd Hs. apply getitem_Return in Hs as (Hpwd & ->).
  quiet_step H raw Hs. apply encode_Return in Hs as (plain & -> & -> & ->).
  quiet_step H token Hs. apply encrypt_Return in Hs as (-> & Hfs2).
  quiet_step H tok Hs. apply decode_Return in Hs as (Htok & ->).
  quiet_step H e0 Hs. apply getitem_Return in Hs as (_ & ->).
  quiet_step H e Hs. apply lower_Return in Hs as (? & -> & -> & ->).
  quiet_step H h0 Hs. apply getitem_Return in Hs as (_ & ->).
  quiet_step H h Hs. apply lower_Return in Hs as (? & -> & -> & ->).
  quiet_step H d0 Hs. apply getitem_Return in Hs as (_ & ->).
  quiet_step H d Hs. apply lower_Return in Hs as (? & -> & -> & ->).
  rewrite lookup_insert_ne in Hpwd by done.
  assert (Hne : tok <> plain).
  { intros ->. apply (encode_decode L laws) in Htok. symmetry in Htok.
    by apply (token_not_plain L laws) in Htok. }
  apply bind_cases in H as [(written & w2 & Hw & H)|(? & Hw & ->)]; cycle 1.
  { left. split; [done|].
    apply guarded_Raise in Hw; [congruence|handler_print|apply dump_Raise]. }
  destruct written; cbn in H; cycle 1.
  { injection H as <- <-. left. split; [done|].
    apply guarded_false in Hw; [congruence|handler_print|apply dump_Raise]. }
  apply guarded_true in Hw; [|handler_false].
  apply dump_Return in Hw as (f & Hfs & Hdata). rewrite Hfs2 in Hfs.
  right. exists kh, sec, plain, tok.
  apply bind_cases in H as [(moded & w3 & Hm & H)|(? & Hm & ->)]; cycle 1.
  { apply guarded_Raise in Hm; [|handler_print|apply chmod_Raise].
    eexists _, f. by rewrite Hm. }
  destruct moded; cbn in H; injection H as <- <-.
  - apply guarded_true in Hm; [|handler_false].
    apply chmod_Return in Hm as (f' & Hf' & _ & Hfs').
    rewrite Hfs, lookup_insert_eq in Hf'. injection Hf' as <-.
    eexists _, _. do 5 (split; [done|]). split.
    + rewrite Hfs', Hfs. apply insert_insert_eq.
    + done.
  - apply guarded_false in Hm; [|handler_print|apply chmod_Raise].
    eexists _, f. by rewrite Hm.
Qed.


(** C3.  Whatever the outcome of [db_save_settings], either it wrote no
    file but possibly the key file (and then it did not return [True]), or
    the one file it wrote holds the sealed record: the argument with
    ["secrethash"] set to that of the key it obtained and ["pwd"] set to the
    text of the Fernet token of the plaintext password under that key's
    secret, which is not the plaintext. *)
Theorem save_settings_sealed s pw w o w' :
  db_save_settings L P s pw w = (o, w') ->
  (o <> Return true /\
   forall path, path <> _secretkeyfile P -> w_files w' !! path = w_files w !! path) \/
  exists keys w1 kh sec plain tok fname f,
    obtains_key pw w keys w1 /\
    keys !! "secret" = Some (VStr sec) /\
    keys !! "secrethash" = Some kh /\
    s !! "pwd" = Some (VStr plain) /\
    bytes_decode L (fernet_encrypt L (str_encode L sec) (w_entropy w1) (str_encode L plain))
      = Some tok /\
    tok <> plain /\
    let sealed := <["pwd" := VStr tok]> (<["secrethash" := kh]> s) in
    sealed !! "pwd" = Some (VStr tok) /\
    sealed !! "secrethash" = Some kh /\
    w_files w' !! fname = Some f /\ f_data f = sealed /\
    forall path, path <> _secretkeyfile P -> path <> fname ->
      w_files w' !! path = w_files w !! path.
Proof.
  unfold db_save_settings. intros H.
  apply bind_cases in H as [(keys0 & w0 & Hget & H)|(e & Hget & ->)]; cycle 1.
  { left. split; [done|]. apply (ow_db_keys_get _ _ _ _ _ Hget). }
  pose proof (ow_db_keys_get _ _ _ _ _ Hget) as Hframe0.
  assert (Hstep : only_key_file
            (if negb (dict_truthy keys0) || negb (bool_decide (is_Some (keys0 !! "secret")))
                || negb (truthy (default VNone (keys0 !! "secret")))
             then print "Setting up new secret key file" ;;
                  do d <- get_default_secretkey; db_keys_set L P d true
             else ret keys0)).
  { case_match; [|ow_auto]. apply ow_bind; [ow_auto|]. intros _.
    apply ow_bind; [ow_auto|]. intros d. apply ow_db_keys_set. }
  apply bind_cases in H as [(keys & w1 & Hkeys & H)|(e & Hkeys & ->)]; cycle 1.
  { left. split; [done|]. intros path Hp.
    rewrite (Hstep _ _ _ Hkeys path Hp). by apply Hframe0. }
  assert (Hframe1 : forall path, path <> _secretkeyfile P ->
            w_files w1 !! path = w_files w !! path).
  { intros path Hp. rewrite (Hstep _ _ _ Hkeys path Hp). by apply Hframe0. }
  assert (Hobt : obtains_key pw w keys w1).
  { exists keys0, w0. split; [done|]. revert Hkeys. case_match eqn:Hc; intros Hkeys.
    - right. apply bind_Return in Hkeys as ([] & w0' & Hp & Hkeys).
      apply bind_Return in Hkeys as (d & w0'' & [= <- <-] & Hkeys).
      injection Hp as <-. split; [|do 2 eexists; split; [|exact Hkeys]; done].
      intros v Hv. rewrite Hv in Hc. cbn in Hc.
      unfold dict_truthy in Hc.
      rewrite (bool_decide_eq_false_2 (keys0 = ∅)) in Hc.
      * cbn in Hc. by apply negb_true_iff in Hc.
      * intros ->. by rewrite lookup_empty in Hv.
    - left. injection Hkeys as <- <-. split; [done|]. split; [done|].
      apply orb_false_elim in Hc as [Hc Ht]. apply negb_false_iff in Ht.
      destruct (keys0 !! "secret") as [v|]; [eauto | done]. }
  clear Hget Hkeys Hstep Hframe0.
  destruct (save_settings_tail s keys w1 o w' _ eq_refl H)
    as [[Ho Hfs]|(kh & sec & plain & tok & fname & f &
                   Hkh & Hsec & Hpwd & Htok & Hne & Hfs & Hdata)].
  - left. split; [done|]. intros path Hp. rewrite Hfs. by apply Hframe1.
  - right. exists keys, w1, kh, sec, plain, tok, fname, f.
    do 6 (split; [done|]). cbn zeta.
    split; [by simplify_map_eq|]. split; [by simplify_map_eq|].
    split; [rewrite Hfs; apply lookup_insert_eq|]. split; [done|].
    intros path Hp Hpf. rewrite Hfs, lookup_insert_ne by done. by apply Hframe1.
Qed.

Lemma owner_only_mode f :
  owner_only f -> f_mode f = Z.lor S_IRUSR S_IWUSR /\ Z.land (f_mode f) 63 = 0.
Proof. intros [-> _]. done. Qed.

(** C6.  A non-empty record returned by [db_keys_set] means the key file
    ends with mode exactly [S_IRUSR | S_IWUSR], and [True] returned by
    [db_save_settings] means the settings file does; none of the group and
    other bits (0o077) is set. *)
Theorem written_files_owner_only :
  (forall sk nk w r w',
     db_keys_set L P sk nk w = (Return r, w') -> r <> ∅ ->
     exists f, w_files w' !! _secretkeyfile P = Some f /\
       f_mode f = Z.lor S_IRUSR S_IWUSR /\ Z.land (f_mode f) 63 = 0) /\
  (forall s pw w w',
     db_save_settings L P s pw w = (Return true, w') ->
     exists e h d f,
       s !! "environment" = Some (VStr e) /\
       s !! "hostname" = Some (VStr h) /\
       s !! "database" = Some (VStr d) /\
       w_files w' !! settings_file (str_lower L e) (str_lower L h) (str_lower L d) = Some f /\
       f_mode f = Z.lor S_IRUSR S_IWUSR /\ Z.land (f_mode f) 63 = 0).
Proof.
  split.
  - intros sk nk w r w' H Hr.
    destruct (db_keys_set_Return _ _ _ _ _ H Hr) as (f & Hf & _ & Ho).
    exists f. split; [done|]. by apply owner_only_mode.
  - intros s pw w w' H.
    destruct (save_settings_Return _ _ _ _ _ H)
      as (keys & w1 & kh & sec & plain & tok & e & h & d &
          _ & _ & _ & _ & _ & _ & He & Hh & Hd & Hout).
    destruct Hout as [(_ & f & Hfs & _ & Ho)|([=] & _)].
    exists e, h, d, f. do 3 (split; [done|]). split.
    + rewrite Hfs. apply lookup_insert_eq.
    + by apply owner_only_mode.
Qed.

(** C7.  [password_to_key] is the urlsafe base64 text of the 32 bytes that
    PBKDF2-HMAC-SHA256 derives from the encoded pass-phrase with 100000
    iterations and the salt [b'2390489409578390']; Fernet accepts it as a
    key; it is a function of the pass-phrase alone (it takes no world), so
    equal pass-phrases give equal keys. *)
Theorem password_to_key_spec p :
  password_to_key L p
    = urlsafe_b64encode L (PBKDF2HMAC L SHA256 32 salt 100000 (str_encode L p)) /\
  String.string_of_list_byte salt = "2390489409578390" /\
  length (PBKDF2HMAC L SHA256 32 salt 100000 (str_encode L p)) = 32%nat /\
  fernet_key_ok L (password_to_key L p) = true /\
  (forall q, q = p -> password_to_key L q = password_to_key L p).
Proof.
  split; [done|]. split; [done|]. split; [apply (pbkdf2_length L laws)|].
  split; [apply password_key_ok|]. by intros q ->.
Qed.

(** X2.  With no key file, and a home directory that lets the process
    create one, [db_keys_get] generates a key: it returns an unlocked record
    holding the text of a fresh Fernet key and the digest of that key, and
    leaves that record in the key file, readable by its owner alone. *)
Theorem keys_get_generates pw prompt w :
  w_files w !! _secretkeyfile P = None ->
  p_create P (_secretkeyfile P) = None ->
  exists text rec w' f,
    let key := urlsafe_b64encode L (os_urandom L 32 (w_entropy w)) in
    bytes_decode L key = Some text /\
    fernet_key_ok L (str_encode L text) = true /\
    rec = <["secrethash" := VStr (blake2b_hexdigest L key)]>
            (<["hash" := VNone]> (<["locked" := VBool false]>
              (<["secret" := VStr text]> (w_default_secretkey w)))) /\
    db_keys_get L P pw prompt w = (Return rec, w') /\
    w_files w' = <[_secretkeyfile P := f]> (w_files w) /\
    f_data f = rec /\ owner_only f /\ may_read P f = true.
Proof.
  intros Hf Hc.
  destruct (b64_text L laws (os_urandom L 32 (w_entropy w))) as [text Htext].
  exists text. eexists _, _, _. cbn zeta.
  split; [done|]. split.
  { rewrite (encode_decode L laws _ _ Htext). apply (b64_key L laws), (urandom_length L laws). }
  split; [done|].
  unfold db_keys_get, db_keys_set, pickle_load, pickle_dump, os_chmod.
  py_run (rewrite ?Hf, ?Hc, ?Htext, ?lookup_insert_eq,
            ?(bool_decide_eq_true_2 (p_euid P = p_euid P)) by done).
  split; [done|]. rewrite insert_insert_eq. split; [done|]. split; [done|].
  split; [done|]. by apply may_read_owner_rw.
Qed.

(** A settings file is never the key file: the names end differently. *)
Fixpoint last_char (s : string) : option Ascii.ascii :=
  match s with
  | EmptyString => None
  | String c EmptyString => Some c
  | String _ s' => last_char s'
  end.

Lemma last_char_app s t : t <> "" -> last_char (s +:+ t) = last_char t.
Proof.
  intros Ht. induction s as [|c s IH]; [done|].
  change (String c s +:+ t) with (String c (s +:+ t)).
  destruct (s +:+ t) as [|c' u] eqn:E.
  - destruct s; cbn in E; [done | discriminate].
  - by rewrite <- IH.
Qed.

Lemma settings_file_not_key e h d : settings_file e h d <> _secretkeyfile P.
Proof.
  intros E. apply (f_equal last_char) in E. revert E.
  unfold settings_file, _secretkeyfile. by rewrite !last_char_app.
Qed.

Lemma keys_get_unlocked pw prompt w f :
  w_files w !! _secretkeyfile P = Some f ->
  may_read P f = true ->
  f_data f !! "locked" = Some (VBool false) ->
  db_keys_get L P pw prompt w = (Return (f_data f), w).
Proof.
  intros Hf Hr Hl.
  assert (Hload : pickle_load P (_secretkeyfile P) w = (Return (f_data f), w)).
  { apply pickle_load_stored. by exists f. }
  unfold db_keys_get. by py_run (rewrite ?Hload, ?Hl).
Qed.

Lemma owner_only_readable f : owner_only f -> may_read P f = true.
Proof. destruct f as [d m u g]. intros [Hm Hu]. cbn in *. subst m. by apply may_read_owner_rw. Qed.

(** C2.  With an unlocked key in the key file, settings saved with
    [db_save_settings] (returning [True]) are found again by
    [db_load_settings] under any spelling of database, host and environment
    that lower-cases to the same names, and the loaded ["pwd"] is the
    plaintext password that was saved. *)
Theorem settings_roundtrip s pw pw' w w1 sk sec database hostname environment d0 h0 e0 :
  stored w (_secretkeyfile P) sk ->
  sk !! "locked" = Some (VBool false) ->
  sk !! "secret" = Some (VStr sec) -> sec <> "" ->
  db_save_settings L P s pw w = (Return true, w1) ->
  s !! "database" = Some (VStr d0) -> str_lower L database = str_lower L d0 ->
  s !! "hostname" = Some (VStr h0) -> str_lower L hostname = str_lower L h0 ->
  s !! "environment" = Some (VStr e0) -> str_lower L environment = str_lower L e0 ->
  exists plain r w2,
    s !! "pwd" = Some (VStr plain) /\
    db_load_settings L P database hostname environment pw' w1 = (Return (Some r), w2) /\
    r !! "pwd" = Some (VStr plain).
Proof.
  intros (fk & Hfk & Hrk & <-) Hl Hsec Hne Hsave Hd0 Hd Hh0 Hh He0 He.
  destruct (save_settings_Return _ _ _ _ _ Hsave)
    as (keys & w0 & kh & sec' & plain & tok & e & h & d &
        Hobt & Hkh & Hsec' & Hok & Hpwd & Htok & Hse & Hsh & Hsd & Hout).
  assert (Hget : forall p, db_keys_get L P p true w = (Return (f_data fk), w))
    by (intros p; by apply keys_get_unlocked).
  destruct Hobt as (keys0 & w0' & Hget0 & Hcase).
  rewrite Hget in Hget0. injection Hget0 as <- <-.
  destruct Hcase as [(-> & -> & _)|(Hno & _)]; cycle 1.
  { specialize (Hno _ Hsec). cbn in Hno. by rewrite bool_decide_eq_false_2 in Hno. }
  rewrite Hsec in Hsec'. injection Hsec' as <-.
  rewrite Hd0 in Hsd. injection Hsd as <-.
  rewrite Hh0 in Hsh. injection Hsh as <-.
  rewrite He0 in Hse. injection Hse as <-.
  cbn zeta in Hout. destruct Hout as [(_ & f & Hfs & Hdata & Ho)|([=] & _)].
  set (fname := settings_file (str_lower L e0) (str_lower L h0) (str_lower L d0)) in *.
  assert (Hget1 : db_keys_get L P pw' true w1 = (Return (f_data fk), w1)).
  { apply keys_get_unlocked; try done.
    rewrite Hfs, lookup_insert_ne; [done|]. apply settings_file_not_key. }
  assert (Hload : pickle_load P fname w1 = (Return (f_data f), w1)).
  { apply pickle_load_stored. exists f. split; [|split; [|done]].
    - rewrite Hfs. apply lookup_insert_eq.
    - by apply owner_only_readable. }
  assert (Htruthy : bool_decide (f_data fk = ∅) = false).
  { apply bool_decide_eq_false_2. intros E. by rewrite E, lookup_empty in Hl. }
  assert (Hfsh : f_data f !! "secrethash" = Some kh) by (rewrite Hdata; by simplify_map_eq).
  assert (Hfpwd : f_data f !! "pwd" = Some (VStr tok)) by (rewrite Hdata; by simplify_map_eq).
  assert (Hdec : fernet_decrypt L (str_encode L sec) (str_encode L tok)
                 = Some (str_encode L plain)).
  { rewrite (encode_decode L laws _ _ Htok). by apply (fernet_roundtrip L laws). }
  pose proof (decode_encode L laws plain) as Hplain.
  exists plain. unfold db_load_settings. rewrite Hd, Hh, He. fold fname.
  py_run (rewrite ?Hget1, ?Hload, ?Htruthy, ?Hfsh, ?Hkh, ?Hsec, ?Hok, ?Hfpwd, ?Hdec, ?Hplain,
            ?(bool_decide_eq_true_2 (kh = kh)) by done).
  do 2 eexists. split; [done|]. split; [done|]. by simplify_map_eq.
Qed.
(** *** More on the key functions *)

Lemma ow_db_keys_lock pw : only_key_file (db_keys_lock L P pw).
Proof.
  unfold db_keys_lock. apply ow_bind; [|intros [b|]; ow_auto].
  apply ow_try; [|intros e h [= <-]; ow_auto].
  apply ow_bind; [ow_auto|]. intros sk.
  apply ow_bind; [ow_auto|]. intros locked.
  destruct (truthy locked); [ow_auto|].
  apply ow_bind; [ow_auto|]. intros [usepass|]; [|ow_auto].
  apply ow_bind; [ow_auto|]. intros sk'.
  apply ow_bind; [apply ow_db_keys_set|]. intros _. ow_auto.
Qed.

Lemma ow_db_keys_unlock pw : only_key_file (db_keys_unlock L P pw).
Proof.
  unfold db_keys_unlock. apply ow_bind; [|intros [b|]; ow_auto].
  apply ow_try; [|intros e h [= <-]; ow_auto].
  apply ow_bind; [ow_auto|]. intros sk.
  apply ow_bind; [ow_auto|]. intros locked.
  destruct (negb (truthy locked)); [ow_auto|].
  apply ow_bind; [ow_auto|]. intros usepass.
  destruct (negb (bool_decide (usepass = ""))); [|ow_auto].
  apply ow_bind; [ow_auto|]. intros h.
  destruct (bool_decide (h = VStr (blake2b_hex L usepass))); [|ow_auto].
  do 5 (apply ow_bind; [ow_auto|]; intros ?).
  apply ow_bind; [apply ow_db_keys_set|]. intros _. ow_auto.
Qed.

Lemma ow_db_load_settings database hostname environment pw :
  only_key_file (db_load_settings L P database hostname environment pw).
Proof.
  unfold db_load_settings. apply ow_bind; [apply ow_db_keys_get|]. intros keys.
  apply ow_try; [|intros e h [= <-]; ow_auto].
  apply ow_bind; [ow_auto|]. intros settings.
  destruct (dict_truthy keys); [|ow_auto].
  apply ow_bind; [ow_auto|]. intros sh.
  apply ow_bind; [ow_auto|]. intros kh.
  destruct (bool_decide (sh = kh)); ow_auto.
Qed.

(** X3.  Locking, unlocking, reading the key and loading settings write no
    file but the secret key file, whatever they return or raise. *)
Theorem key_functions_only_write_key_file w path :
  path <> _secretkeyfile P ->
  (forall pw o w', db_keys_lock L P pw w = (o, w') ->
     w_files w' !! path = w_files w !! path) /\
  (forall pw o w', db_keys_unlock L P pw w = (o, w') ->
     w_files w' !! path = w_files w !! path) /\
  (forall pw prompt o w', db_keys_get L P pw prompt w = (o, w') ->
     w_files w' !! path = w_files w !! path) /\
  (forall database hostname environment pw o w',
     db_load_settings L P database hostname environment pw w = (o, w') ->
     w_files w' !! path = w_files w !! path).
Proof.
  intros Hp. repeat split.
  - intros pw o w' H. by apply (ow_db_keys_lock _ _ _ _ H).
  - intros pw o w' H. by apply (ow_db_keys_unlock _ _ _ _ H).
  - intros pw prompt o w' H. by apply (ow_db_keys_get _ _ _ _ _ H).
  - intros d h e pw o w' H. by apply (ow_db_load_settings _ _ _ _ _ _ _ H).
Qed.

Lemma fs_ret {A} (a : A) : files_same (ret a).
Proof. by intros w o w' [= <- <-]. Qed.

Lemma fs_raise {A} e : files_same (@raise world A e).
Proof. by intros w o w' [= <- <-]. Qed.

Lemma fs_bind {A B} (m : M world A) (k : A -> M world B) :
  files_same m -> (forall a, files_same (k a)) -> files_same (bind m k).
Proof.
  intros Hm Hk w o w' H.
  apply bind_cases in H as [(a & w1 & Hs & H)|(e & Hs & ->)].
  - rewrite (Hk _ _ _ _ H). by apply (Hm _ _ _ Hs).
  - by apply (Hm _ _ _ Hs).
Qed.

Lemma fs_try {A} (body : M world A) handler :
  files_same body ->
  (forall e h, handler e = Some h -> files_same h) ->
  files_same (try_except body handler).
Proof.
  intros Hb Hh w o w' H. unfold try_except in H.
  destruct (body w) as [[a|e] w1] eqn:E.
  - injection H as <- <-. by apply (Hb _ _ _ E).
  - destruct (handler e) as [h|] eqn:Eh.
    + rewrite (Hh _ _ Eh _ _ _ H). by apply (Hb _ _ _ E).
    + injection H as <- <-. by apply (Hb _ _ _ E).
Qed.

Ltac fs_auto := repeat first
  [ apply fs_bind; [|intros ?]
  | apply fs_ret | apply fs_raise
  | solve [auto with fs]
  | match goal with |- files_same (if ?c then _ else _) => destruct c end
  | match goal with |- files_same (match ?x with _ => _ end) => destruct x end ].

(** The part of [db_load_settings] after the key is there. *)
Lemma fs_load_body keys fname :
  files_same
    (try_except
       (do settings <- pickle_load P fname;
        if dict_truthy keys then
          do sh <- getitem settings "secrethash";
          do kh <- getitem keys "secrethash";
          if bool_decide (sh = kh) then
            do ksec <- getitem keys "secret";
            do kraw <- encode L ksec;
            do k <- Fernet L kraw;
            do pwd <- getitem settings "pwd";
            do raw <- encode L pwd;
            do plain <- decrypt L k raw;
            do text <- decode L plain;
            ret (Some (<["pwd" := VStr text]> settings))
          else
            print "Saved settings are incorrect, wrong secret key" ;;
            ret None
        else ret (Some settings))
       (fun _ => Some (ret None))).
Proof. apply fs_try; [fs_auto|]. intros e h [= <-]. fs_auto. Qed.

(** X4.  With an unlocked key in the key file, [db_load_settings] never
    raises and writes nothing: it returns [None] or a settings record, and
    every file is as before. *)
Theorem load_settings_returns database hostname environment pw w sk :
  stored w (_secretkeyfile P) sk ->
  sk !! "locked" = Some (VBool false) ->
  exists r w',
    db_load_settings L P database hostname environment pw w = (Return r, w') /\
    w_files w' = w_files w.
Proof.
  intros (f & Hf & Hr & <-) Hl.
  unfold db_load_settings, bind at 1.
  rewrite (keys_get_unlocked pw true w f Hf Hr Hl).
  match goal with |- context [try_except ?b ?h w] =>
    destruct (try_except b h w) as [[r|e] w1] eqn:Hrun
  end.
  - exists r, w1. split; [done|]. by apply (fs_load_body _ _ _ _ _ Hrun).
  - exfalso. unfold try_except in Hrun.
    match type of Hrun with (let (_, _) := ?b w in _) = _ => destruct (b w) as [[?|?] ?] end;
      discriminate.
Qed.

Lemma pickle_load_Return path w d w' :
  pickle_load P path w = (Return d, w') -> stored w path d /\ w' = w.
Proof.
  unfold pickle_load, stored. destruct (w_files w !! path) as [f|]; [|done].
  destruct (may_read P f) eqn:Hr; [|done]. intros [= <- <-]. eauto.
Qed.

(** X5.  With an unlocked key in the key file, settings that
    [db_load_settings] returns are the stored record, whose ["secrethash"]
    is the key's, with ["pwd"] replaced by the text that the stored token
    decrypts to under the key's secret: settings sealed under another key,
    or whose password does not decrypt, are never returned. *)
Theorem load_settings_sound database hostname environment pw w sk r w' :
  stored w (_secretkeyfile P) sk ->
  sk !! "locked" = Some (VBool false) ->
  db_load_settings L P database hostname environment pw w = (Return (Some r), w') ->
  exists st kh sec tok m plain,
    stored w (settings_file (str_lower L environment) (str_lower L hostname)
                (str_lower L database)) st /\
    st !! "secrethash" = Some kh /\
    sk !! "secrethash" = Some kh /\
    sk !! "secret" = Some (VStr sec) /\
    st !! "pwd" = Some (VStr tok) /\
    fernet_decrypt L (str_encode L sec) (str_encode L tok) = Some m /\
    bytes_decode L m = Some plain /\
    r = <["pwd" := VStr plain]> st.
Proof.
  intros (f & Hf & Hr & <-) Hl H.
  unfold db_load_settings, bind at 1 in H.
  rewrite (keys_get_unlocked pw true w f Hf Hr Hl) in H.
  apply try_except_Return in H as [H|(e & w1 & h & _ & [= <-] & [=])].
  apply bind_Return in H as (st & ? & (Hst & ->)%pickle_load_Return & H).
  assert (Ht : dict_truthy (f_data f) = true).
  { unfold dict_truthy. rewrite bool_decide_eq_false_2; [done|].
    intros E. by rewrite E, lookup_empty in Hl. }
  rewrite Ht in H.
  apply bind_Return in H as (sh & ? & (Hsh & ->)%getitem_Return & H).
  apply bind_Return in H as (kh & ? & (Hkh & ->)%getitem_Return & H).
  case_bool_decide as Heq; cycle 1.
  { by apply bind_Return in H as ([] & ? & _ & [=]). }
  subst sh.
  apply bind_Return in H as (ksec & ? & (Hksec & ->)%getitem_Return & H).
  apply bind_Return in H as (kraw & ? & (sec & -> & -> & ->)%encode_Return & H).
  apply bind_Return in H as (k & ? & (Hok & -> & ->)%Fernet_Return & H).
  apply bind_Return in H as (pwd & ? & (Hpwd & ->)%getitem_Return & H).
  apply bind_Return in H as (raw & ? & (tok & -> & -> & ->)%encode_Return & H).
  apply bind_Return in H as (m & ? & (Hm & ->)%decrypt_Return & H).
  apply bind_Return in H as (plain & ? & (Hplain & ->)%decode_Return & H).
  injection H as <- <-.
  exists st, kh, sec, tok, m, plain. done.
Qed.

(** What [db_load_settings] does once [db_keys_get] has returned a key
    under which the stored settings were sealed. *)
Lemma load_settings_unseals database hostname environment pw w keys w0 f kh sec tok m plain :
  db_keys_get L P pw true w = (Return keys, w0) ->
  w_files w0 !! settings_file (str_lower L environment) (str_lower L hostname)
                  (str_lower L database) = Some f ->
  may_read P f = true ->
  keys <> ∅ ->
  keys !! "secrethash" = Some kh ->
  f_data f !! "secrethash" = Some kh ->
  keys !! "secret" = Some (VStr sec) ->
  fernet_key_ok L (str_encode L sec) = true ->
  f_data f !! "pwd" = Some (VStr tok) ->
  fernet_decrypt L (str_encode L sec) (str_encode L tok) = Some m ->
  bytes_decode L m = Some plain ->
  db_load_settings L P database hostname environment pw w
    = (Return (Some (<["pwd" := VStr plain]> (f_data f))), w0).
Proof.
  intros Hget Hf Hr Hne Hkh Hsh Hsec Hok Hpwd Hdec Hplain.
  assert (Hload : pickle_load P (settings_file (str_lower L environment)
                    (str_lower L hostname) (str_lower L database)) w0
                  = (Return (f_data f), w0)).
  { apply pickle_load_stored. by exists f. }
  assert (Ht : bool_decide (keys = ∅) = false) by by apply bool_decide_eq_false_2.
  unfold db_load_settings.
  by py_run (rewrite ?Hget, ?Hload, ?Ht, ?Hsh, ?Hkh, ?Hsec, ?Hok, ?Hpwd, ?Hdec, ?Hplain,
               ?(bool_decide_eq_true_2 (kh = kh)) by done).
Qed.

(** Saving under an unlocked key that holds a secret: what [True] means. *)
Lemma save_with_unlocked_key s pw w w1 fk sec :
  w_files w !! _secretkeyfile P = Some fk ->
  may_read P fk = true ->
  f_data fk !! "locked" = Some (VBool false) ->
  f_data fk !! "secret" = Some (VStr sec) -> sec <> "" ->
  db_save_settings L P s pw w = (Return true, w1) ->
  exists kh plain tok e h d f,
    f_data fk !! "secrethash" = Some kh /\
    fernet_key_ok L (str_encode L sec) = true /\
    s !! "pwd" = Some (VStr plain) /\
    fernet_decrypt L (str_encode L sec) (str_encode L tok) = Some (str_encode L plain) /\
    s !! "environment" = Some (VStr e) /\
    s !! "hostname" = Some (VStr h) /\
    s !! "database" = Some (VStr d) /\
    w_files w1 = <[settings_file (str_lower L e) (str_lower L h) (str_lower L d) := f]>
                   (w_files w) /\
    f_data f = <["pwd" := VStr tok]> (<["secrethash" := kh]> s) /\
    owner_only f.
Proof.
  intros Hfk Hrk Hl Hsec Hne Hsave.
  destruct (save_settings_Return _ _ _ _ _ Hsave)
    as (keys & w0 & kh & sec' & plain & tok & e & h & d &
        Hobt & Hkh & Hsec' & Hok & Hpwd & Htok & Hse & Hsh & Hsd & Hout).
  destruct Hobt as (keys0 & w0' & Hget0 & Hcase).
  rewrite (keys_get_unlocked pw true w fk Hfk Hrk Hl) in Hget0.
  injection Hget0 as <- <-.
  destruct Hcase as [(-> & -> & _)|(Hno & _)]; cycle 1.
  { specialize (Hno _ Hsec). cbn in Hno. by rewrite bool_decide_eq_false_2 in Hno. }
  rewrite Hsec in Hsec'. injection Hsec' as <-.
  cbn zeta in Hout. destruct Hout as [(_ & f & Hfs & Hdata & Ho)|([=] & _)].
  exists kh, plain, tok, e, h, d, f. do 3 (split; [done|]). split; [|done].
  rewrite (encode_decode L laws _ _ Htok). by apply (fernet_roundtrip L laws).
Qed.

(** [db_keys_get] with the password a key file was locked with. *)
Lemma keys_get_with_password w f lv tok sec r p prompt :
  w_files w !! _secretkeyfile P = Some f ->
  may_read P f = true ->
  f_data f !! "locked" = Some lv -> truthy lv = true ->
  f_data f !! "secret" = Some (VStr tok) ->
  is_Some (f_data f !! "hash") ->
  p <> "" ->
  bytes_decode L (fernet_encrypt L (password_to_key L p) r (str_encode L sec)) = Some tok ->
  exists w',
    db_keys_get L P (Some p) prompt w = (Return (unlocked_record (f_data f) sec), w') /\
    w_files w' = w_files w.
Proof.
  intros Hf Hr Hl Hlv Hsec [h Hh] Hp Htok.
  assert (Hload : pickle_load P (_secretkeyfile P) w = (Return (f_data f), w)).
  { apply pickle_load_stored. by exists f. }
  assert (Hpe : bool_decide (p = "") = false) by by apply bool_decide_eq_false_2.
  pose proof (password_key_ok p) as Hk.
  assert (Hdec : fernet_decrypt L (password_to_key L p) (str_encode L tok)
                 = Some (str_encode L sec)).
  { rewrite (encode_decode L laws _ _ Htok). by apply (fernet_roundtrip L laws). }
  pose proof (decode_encode L laws sec) as Hm.
  unfold db_keys_get. py_run (rewrite ?Hload, ?Hl, ?Hlv, ?Hpe, ?Hh).
  destruct (bool_decide (h = VStr (blake2b_hex L p)));
    py_run (rewrite ?Hk, ?Hsec, ?Hdec, ?Hm); eauto.
Qed.

(** X6.  Settings saved under an unlocked key stay loadable after the key is
    locked, when the pass-phrase is supplied: [db_keys_lock] returns [True],
    and [db_load_settings] with that pass-phrase returns the saved plaintext
    password. *)
Theorem save_lock_load s pw w w1 sk sec p database hostname environment d0 h0 e0 :
  stored w (_secretkeyfile P) sk ->
  sk !! "locked" = Some (VBool false) ->
  sk !! "secret" = Some (VStr sec) -> sec <> "" ->
  p <> "" ->
  db_save_settings L P s pw w = (Return true, w1) ->
  s !! "database" = Some (VStr d0) -> str_lower L database = str_lower L d0 ->
  s !! "hostname" = Some (VStr h0) -> str_lower L hostname = str_lower L h0 ->
  s !! "environment" = Some (VStr e0) -> str_lower L environment = str_lower L e0 ->
  exists w2 plain r w3,
    db_keys_lock L P (Some p) w1 = (Return true, w2) /\
    s !! "pwd" = Some (VStr plain) /\
    db_load_settings L P database hostname environment (Some p) w2 = (Return (Some r), w3) /\
    r !! "pwd" = Some (VStr plain).
Proof.
  intros (fk & Hfk & Hrk & <-) Hl Hsec Hne Hp Hsave Hd0 Hd Hh0 Hh He0 He.
  destruct (save_with_unlocked_key _ _ _ _ _ _ Hfk Hrk Hl Hsec Hne Hsave)
    as (kh & plain & tok & e & h & d & f &
        Hkh & Hok & Hpwd & Hdec & Hse & Hsh & Hsd & Hfs & Hdata & Ho).
  rewrite Hd0 in Hsd. injection Hsd as <-.
  rewrite Hh0 in Hsh. injection Hsh as <-.
  rewrite He0 in Hse. injection Hse as <-.
  set (fname := settings_file (str_lower L e0) (str_lower L h0) (str_lower L d0)) in *.
  assert (Hnk : fname <> _secretkeyfile P) by apply settings_file_not_key.
  assert (Hfk1 : w_files w1 !! _secretkeyfile P = Some fk).
  { by rewrite Hfs, lookup_insert_ne. }
  destruct (lock_unlocked w1 fk sec p Hfk1 Hrk Hl Hsec Hp)
    as (ktok & w2 & Hktok & Hlock & Hafter).
  exists w2, plain.
  assert (Hfsh : f_data f !! "secrethash" = Some kh) by (rewrite Hdata; by simplify_map_eq).
  assert (Hfpwd : f_data f !! "pwd" = Some (VStr tok)) by (rewrite Hdata; by simplify_map_eq).
  pose proof (owner_only_readable f Ho) as Hrf.
  pose proof (decode_encode L laws plain) as Hplain.
  assert (Hcase : exists keys w3,
            db_keys_get L P (Some p) true w2 = (Return keys, w3) /\
            w_files w3 !! fname = Some f /\ keys <> ∅ /\
            keys !! "secrethash" = Some kh /\ keys !! "secret" = Some (VStr sec)).
  { destruct (may_write P fk) eqn:Hw.
    - destruct (key_file_after_written _ _ _ _ Hrk Hw Hafter) as (f2 & Hfs2 & Hd2 & Hr2 & _).
      assert (Hf2 : w_files w2 !! _secretkeyfile P = Some f2).
      { rewrite Hfs2. apply lookup_insert_eq. }
      destruct (keys_get_with_password w2 f2 (VBool true) ktok sec (w_entropy w1) p true)
        as (w3 & Hget & Hfs3); try done.
      + rewrite Hd2. unfold locked_record. by simplify_map_eq.
      + rewrite Hd2. unfold locked_record. by simplify_map_eq.
      + rewrite Hd2. unfold locked_record. by simplify_map_eq.
      + eexists _, w3. split; [exact Hget|]. split.
        { rewrite Hfs3, Hfs2, lookup_insert_ne by done. rewrite Hfs. apply lookup_insert_eq. }
        rewrite Hd2. unfold unlocked_record, locked_record. split.
        { intros E. apply (f_equal (fun m => m !! "locked")) in E.
          by rewrite lookup_insert_eq, lookup_empty in E. }
        split; by simplify_map_eq.
    - destruct Hafter as [[_ Hfs2]|[? _]]; [|congruence].
      exists (f_data fk), w2. split.
      { apply keys_get_unlocked; [by rewrite Hfs2|done..]. }
      split; [rewrite Hfs2, Hfs; apply lookup_insert_eq|].
      split; [|done]. intros E. by rewrite E, lookup_empty in Hl. }
  destruct Hcase as (keys & w3 & Hget & Hf3 & Hkne & Hkkh & Hksec).
  exists (<["pwd" := VStr plain]> (f_data f)), w3. split; [done|]. split; [done|]. split.
  - unfold fname in Hf3. rewrite <- Hd, <- Hh, <- He in Hf3.
    by apply (load_settings_unseals database hostname environment (Some p) w2 keys w3 f kh sec
                tok (str_encode L plain) plain).
  - apply lookup_insert_eq.
Qed.

(** *** Computations whose outcome does not depend on the world *)
Definition blind {A} (m : M world A) : Prop :=
  forall wA wB, fst (m wA) = fst (m wB).

Lemma bind_first {A B} (m : M world A) (k : A -> M world B) wA wB :
  fst (m wA) = fst (m wB) -> (forall a, blind (k a)) ->
  fst (bind m k wA) = fst (bind m k wB).
Proof.
  intros Hm Hk. unfold bind.
  destruct (m wA) as [[a|e] wA'], (m wB) as [[b|e'] wB']; cbn in Hm; simplify_eq; [|done].
  apply Hk.
Qed.

Lemma try_first {A} (body : M world A) handler wA wB :
  fst (body wA) = fst (body wB) -> (forall e h, handler e = Some h -> blind h) ->
  fst (try_except body handler wA) = fst (try_except body handler wB).
Proof.
  intros Hb Hh. unfold try_except.
  destruct (body wA) as [[a|e] wA'], (body wB) as [[b|e'] wB']; cbn in Hb; simplify_eq; [done|].
  destruct (handler e') as [h|] eqn:He; [|done]. by apply (Hh _ _ He).
Qed.

Lemma blind_ret {A} (a : A) : blind (ret a).
Proof. done. Qed.

Lemma blind_raise {A} e : blind (@raise world A e).
Proof. done. Qed.

Lemma blind_bind {A B} (m : M world A) (k : A -> M world B) :
  blind m -> (forall a, blind (k a)) -> blind (bind m k).
Proof. intros Hm Hk wA wB. by apply bind_first. Qed.

Lemma blind_getitem d k : blind (getitem d k).
Proof. unfold getitem. by destruct (d !! k). Qed.

Lemma blind_print line : blind (print line).
Proof. done. Qed.

Lemma blind_encode x : blind (encode L x).
Proof. by destruct x. Qed.

Lemma blind_decode b : blind (decode L b).
Proof. unfold decode. by destruct (bytes_decode L b). Qed.

Lemma blind_Fernet key : blind (Fernet L key).
Proof. unfold Fernet. by destruct (fernet_key_ok L key). Qed.

Lemma blind_decrypt k t : blind (decrypt L k t).
Proof. unfold decrypt. by destruct (fernet_decrypt L k t). Qed.

Ltac blind_auto := repeat first
  [ apply blind_bind; [|intros ?]
  | apply blind_ret | apply blind_raise | apply blind_getitem | apply blind_print
  | apply blind_encode | apply blind_decode | apply blind_Fernet | apply blind_decrypt
  | match goal with |- blind (if ?c then _ else _) => destruct c end ].

(** Once the key is there, what [db_load_settings] returns depends on the
    world through the settings file alone. *)
Lemma load_settings_depends database hostname environment pw pw' wA wB keys :
  db_keys_get L P pw true wA = (Return keys, wA) ->
  db_keys_get L P pw' true wB = (Return keys, wB) ->
  (let fname := settings_file (str_lower L environment) (str_lower L hostname)
                  (str_lower L database) in
   w_files wA !! fname = w_files wB !! fname) ->
  fst (db_load_settings L P database hostname environment pw wA)
  = fst (db_load_settings L P database hostname environment pw' wB).
Proof.
  intros HA HB Hfs. cbn zeta in Hfs.
  etrans; [unfold db_load_settings, bind at 1; rewrite HA; reflexivity|].
  symmetry. etrans; [unfold db_load_settings, bind at 1; rewrite HB; reflexivity|].
  symmetry. apply try_first; [|intros e h [= <-]; apply blind_ret].
  apply bind_first; [|intros st; blind_auto].
  unfold pickle_load. rewrite Hfs.
  destruct (w_files wB !! _) as [f|]; [|done]. by destruct (may_read P f).
Qed.

(** X7.  With an unlocked key in the key file, saving settings changes what
    [db_load_settings] answers for no database, host and environment whose
    settings file has another name. *)
Theorem save_keeps_other_settings s pw pw' w b w1 sk sec
    database hostname environment d0 h0 e0 :
  stored w (_secretkeyfile P) sk ->
  sk !! "locked" = Some (VBool false) ->
  sk !! "secret" = Some (VStr sec) -> sec <> "" ->
  db_save_settings L P s pw w = (Return b, w1) ->
  s !! "database" = Some (VStr d0) ->
  s !! "hostname" = Some (VStr h0) ->
  s !! "environment" = Some (VStr e0) ->
  settings_file (str_lower L environment) (str_lower L hostname) (str_lower L database)
    <> settings_file (str_lower L e0) (str_lower L h0) (str_lower L d0) ->
  fst (db_load_settings L P database hostname environment pw' w1)
  = fst (db_load_settings L P database hostname environment pw' w).
Proof.
  intros (fk & Hfk & Hrk & <-) Hl Hsec Hne Hsave Hd0 Hh0 He0 Hdiff.
  destruct (save_settings_Return _ _ _ _ _ Hsave)
    as (keys & w0 & kh & sec' & plain & tok & e & h & d &
        Hobt & _ & _ & _ & _ & _ & Hse & Hsh & Hsd & Hout).
  destruct Hobt as (keys0 & w0' & Hget0 & Hcase).
  rewrite (keys_get_unlocked pw true w fk Hfk Hrk Hl) in Hget0.
  injection Hget0 as <- <-.
  destruct Hcase as [(-> & -> & _)|(Hno & _)]; cycle 1.
  { specialize (Hno _ Hsec). cbn in Hno. by rewrite bool_decide_eq_false_2 in Hno. }
  rewrite Hd0 in Hsd. injection Hsd as <-.
  rewrite Hh0 in Hsh. injection Hsh as <-.
  rewrite He0 in Hse. injection Hse as <-.
  cbn zeta in Hout.
  assert (Hsame : forall path,
            path <> settings_file (str_lower L e0) (str_lower L h0) (str_lower L d0) ->
            w_files w1 !! path = w_files w !! path).
  { intros path Hp.
    destruct Hout as [(_ & f & -> & _)|(_ & [->|(f & -> & _)])];
      by rewrite ?lookup_insert_ne. }
  apply (load_settings_depends _ _ _ _ _ _ _ (f_data fk)).
  - apply keys_get_unlocked; [|done..].
    rewrite Hsame; [done|]. intros E. symmetry in E. by apply settings_file_not_key in E.
  - by apply keys_get_unlocked.
  - cbn zeta. by apply Hsame.
Qed.

(** *** The prompt of [db_keys_get] *)

Definition typed (rest : list string) (w : world) : world :=
  World (w_files w) (w_default_secretkey w) (w_entropy w) rest (w_stdout w).

(** The loop stops at the first line whose digest is the stored one, as
    long as it is among the first ten lines. *)
Lemma prompt_loop_accepts sk p rest wrong :
  sk !! "hash" = Some (VStr (blake2b_hex L p)) ->
  Forall (fun t => blake2b_hex L t <> blake2b_hex L p) wrong ->
  forall fuel attempts pass0 w,
    w_stdin w = (wrong ++ p :: rest)%list ->
    (attempts + length wrong <= 9)%nat ->
    (length wrong < fuel)%nat ->
    prompt_loop L fuel attempts sk pass0 w = (Return p, typed rest w).
Proof.
  intros Hh. induction 1 as [|t wrong Ht Hwrong IH]; intros fuel attempts pass0 w Hin Ha Hf;
    (destruct fuel as [|fuel]; [cbn in Hf; lia|]);
    destruct w as [fs dk en sin sout]; cbn in Hin; subst sin;
    cbn [prompt_loop]; unfold bind, getpass, getitem; cbn -[Nat.ltb]; rewrite Hh;
    cbn -[Nat.ltb].
  - by rewrite bool_decide_eq_true_2.
  - rewrite bool_decide_eq_false_2 by (intros [= E]; by apply Ht).
    replace (9 <? S attempts)%nat with false
      by (symmetry; apply Nat.ltb_ge; cbn in Ha; lia).
    cbn. rewrite (IH fuel (S attempts) t); cbn; [done|done|cbn in Ha; lia|cbn in Hf; lia].
Qed.

(** After ten lines of which none has the stored digest the loop ends with
    the tenth. *)
Lemma prompt_loop_gives_up sk h rest front :
  sk !! "hash" = Some h ->
  forall last fuel attempts pass0 w,
    Forall (fun t => h <> VStr (blake2b_hex L t)) (front ++ [last]) ->
    w_stdin w = ((front ++ [last]) ++ rest)%list ->
    (attempts + length front = 9)%nat ->
    (length front < fuel)%nat ->
    prompt_loop L fuel attempts sk pass0 w = (Return last, typed rest w).
Proof.
  intros Hh. induction front as [|t front IH]; intros last fuel attempts pass0 w Hall Hin Ha Hf;
    (destruct fuel as [|fuel]; [cbn in Hf; lia|]);
    destruct w as [fs dk en sin sout]; cbn in Hin; subst sin;
    cbn [prompt_loop]; unfold bind, getpass, getitem; cbn -[Nat.ltb]; rewrite Hh;
    cbn -[Nat.ltb];
    apply Forall_cons in Hall as [Ht Hall];
    rewrite bool_decide_eq_false_2 by done.
  - cbn in Ha. rewrite Nat.add_0_r in Ha. subst attempts. done.
  - replace (9 <? S attempts)%nat with false
      by (symmetry; apply Nat.ltb_ge; cbn in Ha; lia).
    cbn. rewrite (IH last fuel (S attempts) t); cbn;
      [done|done|done|cbn in Ha; lia|cbn in Hf; lia].
Qed.

(** X8.  With no password supplied, [db_keys_get] on a locked key file
    prompts: the pass-phrase the file was locked with is accepted at any of
    the first ten prompts, and nothing typed after it is read; after ten
    answers with another digest it stops prompting and, the tenth answer not
    decrypting the secret, raises [InvalidToken].  No file is written. *)
Theorem keys_get_prompts pw w f lv tok :
  supplied pw = false ->
  w_files w !! _secretkeyfile P = Some f ->
  may_read P f = true ->
  f_data f !! "locked" = Some lv -> truthy lv = true ->
  f_data f !! "secret" = Some (VStr tok) ->
  (forall p sec r wrong rest,
     f_data f !! "hash" = Some (VStr (blake2b_hex L p)) ->
     bytes_decode L (fernet_encrypt L (password_to_key L p) r (str_encode L sec)) = Some tok ->
     Forall (fun t => blake2b_hex L t <> blake2b_hex L p) wrong ->
     (length wrong <= 9)%nat ->
     w_stdin w = (wrong ++ p :: rest)%list ->
     exists w',
       db_keys_get L P pw true w = (Return (unlocked_record (f_data f) sec), w') /\
       w_stdin w' = rest /\ w_files w' = w_files w) /\
  (forall h front last rest,
     f_data f !! "hash" = Some h ->
     Forall (fun t => h <> VStr (blake2b_hex L t)) (front ++ [last]) ->
     length front = 9%nat ->
     w_stdin w = ((front ++ [last]) ++ rest)%list ->
     fernet_decrypt L (password_to_key L last) (str_encode L tok) = None ->
     exists w',
       db_keys_get L P pw true w = (Raise InvalidToken, w') /\
       w_stdin w' = rest /\ w_files w' = w_files w).
Proof.
  intros Hpw Hf Hr Hl Hlv Hsec.
  assert (Hload : pickle_load P (_secretkeyfile P) w = (Return (f_data f), w)).
  { apply pickle_load_stored. by exists f. }
  split.
  - intros p sec r wrong rest Hh Htok Hwrong Hlen Hin.
    assert (Hdec : fernet_decrypt L (password_to_key L p) (str_encode L tok)
                   = Some (str_encode L sec)).
    { rewrite (encode_decode L laws _ _ Htok).
      apply (fernet_roundtrip L laws), password_key_ok. }
    pose proof (decode_encode L laws sec) as Hm.
    pose proof (password_key_ok p) as Hk.
    unfold db_keys_get, try_except, bind at 1. rewrite Hload.
    unfold bind at 1, getitem at 1. rewrite Hl. cbn [ret]. rewrite Hlv, Hpw.
    unfold bind at 1. unfold bind at 1, print at 1. unfold bind at 1, print at 1.
    erewrite (prompt_loop_accepts (f_data f) p rest wrong Hh Hwrong); [|done|lia|lia].
    py_run (rewrite ?Hk, ?Hsec, ?Hdec, ?Hm). eauto.
  - intros h front last rest Hh Hall Hlen Hin Hdec.
    pose proof (password_key_ok last) as Hk.
    unfold db_keys_get, try_except, bind at 1. rewrite Hload.
    unfold bind at 1, getitem at 1. rewrite Hl. cbn [ret]. rewrite Hlv, Hpw.
    unfold bind at 1. unfold bind at 1, print at 1. unfold bind at 1, print at 1.
    erewrite (prompt_loop_gives_up (f_data f) h rest front Hh last); [|done|done|lia|lia].
    py_run (rewrite ?Hk, ?Hsec, ?Hdec). eauto.
Qed.

(** *** A key file the process may read but not write *)

(** X9.  On a key file the process may read but not write, locking and
    unlocking with the right pass-phrase both answer [True] and print their
    message of success after the message of the refused write, and the key
    file is as it was: still unlocked after [db_keys_lock], still locked
    after [db_keys_unlock]. *)
Theorem read_only_key_file_reports_success w f p :
  w_files w !! _secretkeyfile P = Some f ->
  may_read P f = true ->
  may_write P f = false ->
  p <> "" ->
  (forall sec,
     f_data f !! "locked" = Some (VBool false) ->
     f_data f !! "secret" = Some (VStr sec) ->
     exists w1,
       db_keys_lock L P (Some p) w = (Return true, w1) /\
       w_files w1 = w_files w /\
       w_stdout w1 = (w_stdout w ++
         ["Failed trying to write secret key file (permissions).";
          "Secret key successfully locked"])%list) /\
  (forall lv tok m sec,
     f_data f !! "locked" = Some lv -> truthy lv = true ->
     f_data f !! "hash" = Some (VStr (blake2b_hex L p)) ->
     f_data f !! "secret" = Some (VStr tok) ->
     fernet_decrypt L (password_to_key L p) (str_encode L tok) = Some m ->
     bytes_decode L m = Some sec ->
     exists w1,
       db_keys_unlock L P (Some p) w = (Return true, w1) /\
       w_files w1 = w_files w /\
       w_stdout w1 = (w_stdout w ++
         ["Failed trying to write secret key file (permissions).";
          "Secret key successfully unlocked"])%list).
Proof.
  intros Hf Hr Hw Hp.
  assert (Hload : pickle_load P (_secretkeyfile P) w = (Return (f_data f), w)).
  { apply pickle_load_stored. by exists f. }
  assert (Hpe : bool_decide (p = "") = false) by by apply bool_decide_eq_false_2.
  pose proof (password_key_ok p) as Hk.
  split.
  - intros sec Hl Hsec.
    destruct (token_text L laws (password_to_key L p) (w_entropy w) (str_encode L sec))
      as [tok Htok].
    py_run (rewrite ?Hload, ?Hl, ?Hpe, ?Hk, ?Hsec, ?Htok).
    unfold db_keys_set, pickle_dump.
    py_run (rewrite ?Hf, ?Hw).
    eexists. split; [done|]. split; [done|]. cbn. by rewrite <- app_assoc.
  - intros lv tok m sec Hl Hlv Hh Hsec Hdec Hm.
    py_run (rewrite ?Hload, ?Hl, ?Hlv, ?Hpe, ?Hh, ?Hk, ?Hsec, ?Hdec, ?Hm,
              ?(bool_decide_eq_true_2 (VStr (blake2b_hex L p) = VStr (blake2b_hex L p))) by done).
    unfold db_keys_set, pickle_dump.
    py_run (rewrite ?Hf, ?Hw).
    eexists. split; [done|]. split; [done|]. cbn. by rewrite <- app_assoc.
Qed.

End Proofs.
End KeyLifecycle.

(** ** [export_table]: what reaches the CSV file *)

Module ExportTable.
Import ImportExport.

Section Proofs.

Context (L : library) (D : driver).
Context (_folder : string) (_write_headers : bool) (refused : string -> option exn).

Local Abbreviation get_index := (get_index D).
Local Abbreviation unload := (unload D _write_headers refused).
Local Abbreviation export_table := (export_table L D _folder _write_headers refused).
Local Abbreviation filecsv := (filecsv L _folder).
Local Abbreviation filetmp := (filetmp L _folder).

(** A computation that writes no file but [tmp]. *)
Local Abbreviation only_writes := (only_writes w_files).

Lemma ow_lift tmp {A} (o : outcome A) : only_writes tmp (lift o).
Proof. destruct o; [apply ow_ret | apply ow_raise]. Qed.

Lemma ow_print tmp line : only_writes tmp (print line).
Proof. by intros w o w' [= <- <-]. Qed.

Lemma ow_db_error tmp quiet : only_writes tmp (db_error D quiet).
Proof. destruct quiet; [apply ow_ret | apply ow_print]. Qed.

Lemma ow_open_w tmp : only_writes tmp (open_w refused tmp).
Proof.
  intros w o w' H path Hp. unfold open_w in H.
  destruct (refused tmp); injection H as <- <-; [done|].
  cbn. by rewrite lookup_insert_ne.
Qed.

Lemma ow_write_record tmp record : only_writes tmp (write_record tmp record).
Proof. intros w o w' [= <- <-] path Hp. cbn. by rewrite lookup_insert_ne. Qed.

#[local] Hint Resolve ow_lift ow_print ow_db_error ow_open_w ow_write_record : ow.

Lemma ow_handler tmp {A} (a : A) (err : exn) :
  only_writes tmp (print (str err) ;; db_error D false ;; ret a).
Proof. auto with ow. Qed.

Lemma ow_dict_to_list tmp fieldnames rowdict : only_writes tmp (dict_to_list fieldnames rowdict).
Proof. unfold dict_to_list. repeat case_match; auto with ow. Qed.

Lemma ow_writerow tmp fieldnames rowdict : only_writes tmp (writerow fieldnames tmp rowdict).
Proof. unfold writerow. auto using ow_dict_to_list with ow. Qed.

Lemma ow_writeheader tmp fieldnames : only_writes tmp (writeheader fieldnames tmp).
Proof. unfold writeheader. destruct fieldnames; auto using ow_writerow with ow. Qed.

Lemma ow_fetch_assoc tmp pending : only_writes tmp (fetch_assoc pending).
Proof. unfold fetch_assoc. repeat case_match; auto with ow. Qed.

Lemma ow_write_rows tmp fieldnames pending :
  forall data_row n m, only_writes tmp (write_rows fieldnames tmp data_row pending n m).
Proof.
  induction pending as [|[r|e] pending IH]; intros data_row n m; cbn;
    apply ow_bind; auto using ow_writerow with ow.
Qed.

Lemma ow_get_columns tmp stmt : only_writes tmp (get_columns D stmt).
Proof.
  unfold get_columns. apply ow_try; [auto with ow|].
  intros e h [= <-]. apply ow_handler.
Qed.

Lemma ow_unload sql tmp : only_writes tmp (unload sql tmp).
Proof.
  unfold ImportExport.unload.
  apply ow_bind; [auto with ow|]. intros stmt.
  apply ow_bind; [apply ow_get_columns|]. intros tbcolumns.
  apply ow_bind; [auto with ow|]. intros executed.
  apply ow_bind; [|auto with ow].
  destruct executed; [|auto with ow].
  apply ow_bind; [apply ow_fetch_assoc|]. intros [[data_row|] pending];
    (apply ow_bind; [auto with ow|]); intros _;
    (apply ow_bind; [destruct _write_headers; auto using ow_writeheader with ow|]);
    intros count_records; auto using ow_write_rows with ow.
Qed.

(** [get_index] always returns, and writes no file. *)
Lemma get_index_returns schema tbname w :
  exists ic w0, get_index schema tbname w = (Return ic, w0) /\ w_files w0 = w_files w.
Proof.
  unfold ImportExport.get_index, try_except, bind, lift.
  destruct (d_primary_keys D schema tbname) as [[|c [|c' names]]|e]; cbn; eauto.
Qed.

Lemma length_append (s t : string) :
  String.length (s +:+ t) = (String.length s + String.length t)%nat.
Proof.
  induction s as [|c s IH]; [done|].
  change (String c s +:+ t) with (String c (s +:+ t)). cbn. by rewrite IH.
Qed.

Lemma csv_not_tmp schema tbname : filecsv schema tbname <> filetmp schema tbname.
Proof.
  unfold ImportExport.filecsv, ImportExport.filetmp, Path. intros E.
  apply (f_equal String.length) in E. rewrite !length_append in E. cbn in E. lia.
Qed.


(** The record [DictWriter] writes for a row. *)
Definition record_of (names : list string) (rowdict : row) : list string :=
  (fun key => default "" (rowdict !! key)) <$> names.

(** The records of a complete export. *)
Definition csv_of (fieldnames : option (list string)) (rows : list row) : list (list string) :=
  ((if _write_headers then [default [] fieldnames] else [])
   ++ (record_of (default [] fieldnames) <$> rows))%list.

Lemma writerow_Return fieldnames tmp rowdict w w' :
  writerow fieldnames tmp rowdict w = (Return tt, w') ->
  exists names, fieldnames = Some names /\
    w_files w' = <[tmp := (default [] (w_files w !! tmp) ++ [record_of names rowdict])%list]>
                   (w_files w).
Proof.
  unfold writerow, dict_to_list, bind. destruct fieldnames as [names|]; [|done].
  case_bool_decide; [|done]. cbn. intros [= <-]. eauto.
Qed.

Lemma header_lookup (names : list string) key :
  key ∈ names -> (list_to_map (zip names names) : row) !! key = Some key.
Proof.
  induction names as [|a names IH]; [by intros ?%elem_of_nil|].
  intros Hk. cbn. destruct (decide (a = key)) as [->|Hne].
  - apply lookup_insert_eq.
  - rewrite lookup_insert_ne by done. apply IH.
    by apply elem_of_cons in Hk as [->|].
Qed.

Lemma header_record (names : list string) :
  record_of names (list_to_map (zip names names)) = names.
Proof.
  unfold record_of. transitivity (id <$> names); [|apply list_fmap_id].
  apply Forall_fmap_ext, Forall_forall. intros key Hk. by rewrite header_lookup.

Qed.

Lemma write_rows_Return fieldnames tmp pending :
  forall data_row n m w counts w',
    write_rows fieldnames tmp data_row pending n m w = (Return counts, w') ->
    exists names rows,
      fieldnames = Some names /\
      pending = Return <$> rows /\
      counts = ((n + S (length rows))%nat, (m + S (length rows))%nat) /\
      w_files w' = <[tmp := (default [] (w_files w !! tmp)
                             ++ (record_of names <$> (data_row :: rows)))%list]> (w_files w).
Proof.
  induction pending as [|[r|e] pending IH]; intros data_row n m w counts w' H;
    cbn in H; apply bind_Return in H as ([] & w1 & Hw & H);
    apply writerow_Return in Hw as (names & -> & Hfs).
  - injection H as <- <-. exists names, []. cbn. rewrite !Nat.add_1_r. done.
  - apply IH in H as (names' & rows & [= <-] & -> & -> & Hfs').
    exists names, (r :: rows). split; [done|]. split; [done|]. split.
    + cbn. f_equal; lia.
    + rewrite Hfs', Hfs, lookup_insert_eq, insert_insert_eq. cbn.
      by rewrite <- app_assoc.
  - discriminate.
Qed.

(** What [get_columns] answers for a statement. *)
Definition columns_of (stmt : statement) : option (list string) :=
  match st_fields stmt with
  | Return names => Some (collect_columns names [])
  | Raise _ => None
  end.

Lemma get_columns_returns stmt w :
  exists w', get_columns D stmt w = (Return (columns_of stmt), w') /\ w_files w' = w_files w.
Proof.
  unfold get_columns, columns_of, try_except, bind, lift.
  destruct (st_fields stmt); cbn; eauto.
Qed.

Lemma unload_Return sql tmp stmt w n w1 :
  d_prepare D sql = Return stmt ->
  st_execute stmt = Return true ->
  unload sql tmp w = (Return n, w1) ->
  exists rows,
    st_rows stmt = Return <$> rows /\
    n = length rows /\
    w_files w1 !! tmp = Some (csv_of (columns_of stmt) rows).
Proof.
  intros Hprep Hexec H. unfold ImportExport.unload in H.
  rewrite Hprep in H. cbn [lift] in H.
  apply bind_Return in H as (? & ? & [= <- <-] & H).
  destruct (get_columns_returns stmt w) as (w0 & Hcols & Hfs0).
  apply bind_Return in H as (tbcolumns & ? & Hc & H).
  rewrite Hcols in Hc. injection Hc as <- <-.
  rewrite Hexec in H. cbn [lift] in H.
  apply bind_Return in H as (? & ? & [= <- <-] & H).
  apply bind_Return in H as (counts & w' & H & Hfree).
  apply bind_Return in Hfree as (? & w'' & Hfree & [= <- <-]).
  assert (w'' = w') as -> by (destruct (st_free stmt); by injection Hfree).
  clear Hfree.
  apply bind_Return in H as ([fetched pending] & ? & Hfetch & H).
  apply bind_Return in H as ([] & w2 & Hopen & H).
  apply bind_Return in H as (count_records & w3 & Hhead & H).
  assert (Hfs2 : w_files w2 !! tmp = Some []).
  { unfold open_w in Hopen. destruct (refused tmp); [done|].
    injection Hopen as <-. cbn. apply lookup_insert_eq. }
  assert (Hfs3 : w_files w3 !! tmp
                 = Some (if _write_headers then [default [] (columns_of stmt)] else [])).
  { destruct _write_headers.
    - apply bind_Return in Hhead as ([] & ? & Hh & [= <- <-]).
      unfold writeheader in Hh. destruct (columns_of stmt) as [names|]; [|done].
      apply writerow_Return in Hh as (? & [= <-] & ->).
      rewrite lookup_insert_eq, Hfs2. cbn. by rewrite header_record.
    - by injection Hhead as <- <-. }
  unfold fetch_assoc in Hfetch.
  destruct (st_rows stmt) as [|[r|e] rest] eqn:Hrows; try done.
  - injection Hfetch as <- <- <-. injection H as <- <-.
    exists []. unfold csv_of. cbn. by rewrite app_nil_r.
  - injection Hfetch as <- <- <-.
    apply write_rows_Return in H as (names & rows & Hn & -> & -> & Hfs).
    exists (r :: rows). split; [done|]. split; [done|].
    rewrite Hfs, lookup_insert_eq, Hfs3, Hn. done.
Qed.

(** [export_table] after [get_index]: the handler turns a raising [unload]
    into [False]; after a returning one the CSV file is unlinked and the
    temporary file renamed over it. *)
Lemma export_table_cases schema tbname w index_columns w0 :
  get_index schema tbname w = (Return index_columns, w0) ->
  match unload (sql_text L index_columns schema tbname) (filetmp schema tbname) w0 with
  | (Raise e, w1) =>
      exists w', export_table schema tbname w = (Return false, w') /\
        w_files w' = w_files w1
  | (Return n, w1) =>
      match w_files w1 !! filetmp schema tbname with
      | Some content =>
          exists w', export_table schema tbname w = (Return true, w') /\
            w_files w' = <[filecsv schema tbname := content]>
                           (delete (filetmp schema tbname)
                              (delete (filecsv schema tbname) (w_files w1)))
      | None =>
          exists w', export_table schema tbname w = (Return false, w') /\
            w_files w' = delete (filecsv schema tbname) (w_files w1)
      end
  end.
Proof.
  intros Hix.
  destruct (unload _ _ w0) as [[n|e] w1] eqn:Hun.
  - destruct (w_files w1 !! filetmp schema tbname) as [content|] eqn:Htmp;
      unfold ImportExport.export_table, try_except, bind;
      rewrite Hix, Hun; unfold print, unlink, rename, db_error, bind; cbn;
      rewrite lookup_delete_ne by apply csv_not_tmp; rewrite Htmp; cbn; eauto.
  - unfold ImportExport.export_table, try_except, bind. rewrite Hix, Hun.
    unfold print, db_error, bind. cbn. eauto.
Qed.

Lemma export_table_true schema tbname w index_columns w0 w' :
  get_index schema tbname w = (Return index_columns, w0) ->
  export_table schema tbname w = (Return true, w') ->
  exists n w1 content,
    unload (sql_text L index_columns schema tbname) (filetmp schema tbname) w0
      = (Return n, w1) /\
    w_files w1 !! filetmp schema tbname = Some content /\
    w_files w' !! filecsv schema tbname = Some content /\
    w_files w' !! filetmp schema tbname = None.
Proof.
  intros Hix Hex.
  pose proof (export_table_cases schema tbname w index_columns w0 Hix) as Hc.
  destruct (unload _ _ w0) as [[n|e] w1]; cycle 1.
  { destruct Hc as (w'' & Hex' & _). congruence. }
  destruct (w_files w1 !! filetmp schema tbname) as [content|] eqn:Htmp; cycle 1.
  { destruct Hc as (w'' & Hex' & _). congruence. }
  destruct Hc as (w'' & Hex' & Hfs). rewrite Hex in Hex'. injection Hex' as <-.
  exists n, w1, content. split; [done|]. split; [done|]. rewrite Hfs. split.
  - apply lookup_insert_eq.
  - rewrite lookup_insert_ne by apply csv_not_tmp. apply lookup_delete_eq.
Qed.

(** C9.  When the query or the writing of the temporary file raises,
    [export_table] returns [False] and the CSV file of the table is what it
    was before the call; when they complete, the CSV file is replaced by
    what the temporary file then holds, renamed over it. *)
Theorem export_failure_keeps_csv schema tbname w index_columns w0 :
  get_index schema tbname w = (Return index_columns, w0) ->
  (forall e w1,
     unload (sql_text L index_columns schema tbname) (filetmp schema tbname) w0
       = (Raise e, w1) ->
     exists w', export_table schema tbname w = (Return false, w') /\
       w_files w' !! filecsv schema tbname = w_files w !! filecsv schema tbname) /\
  (forall w',
     export_table schema tbname w = (Return true, w') ->
     exists n w1 content,
       unload (sql_text L index_columns schema tbname) (filetmp schema tbname) w0
         = (Return n, w1) /\
       w_files w1 !! filetmp schema tbname = Some content /\
       w_files w' !! filecsv schema tbname = Some content /\
       w_files w' !! filetmp schema tbname = None).
Proof.
  intros Hix. pose proof (export_table_cases schema tbname w index_columns w0 Hix) as Hc.
  destruct (get_index_returns schema tbname w) as (ic & w0' & Hix' & Hfs0).
  rewrite Hix in Hix'. injection Hix' as <- <-.
  split.
  - intros e w1 Hun. rewrite Hun in Hc. destruct Hc as (w' & Hex & Hfs).
    exists w'. split; [done|]. rewrite Hfs, <- Hfs0.
    apply (ow_unload _ _ _ _ _ Hun), csv_not_tmp.
  - intros w' Hex. by apply (export_table_true schema tbname w).
Qed.

(** X1 (C8 for a statement that executed).
    After a statement that executed, a successful export leaves in the CSV
    file one record per row of the result set, in the order fetched, after
    one header record when headers are enabled. *)
Theorem export_success_records schema tbname w index_columns w0 stmt w' :
  get_index schema tbname w = (Return index_columns, w0) ->
  d_prepare D (sql_text L index_columns schema tbname) = Return stmt ->
  st_execute stmt = Return true ->
  export_table schema tbname w = (Return true, w') ->
  exists rows,
    st_rows stmt = Return <$> rows /\
    w_files w' !! filecsv schema tbname = Some (csv_of (columns_of stmt) rows) /\
    length (csv_of (columns_of stmt) rows)
      = (length rows + if _write_headers then 1 else 0)%nat.
Proof.
  intros Hix Hprep Hexec Hex.
  destruct (export_table_true schema tbname w index_columns w0 w' Hix Hex)
    as (n & w1 & content & Hun & Htmp & Hcsv & _).
  destruct (unload_Return _ _ _ _ _ _ Hprep Hexec Hun) as (rows & Hrows & _ & Htmp').
  rewrite Htmp in Htmp'. injection Htmp' as ->.
  exists rows. split; [done|]. split; [done|].
  unfold csv_of. rewrite length_app, length_fmap. destruct _write_headers; cbn; lia.
Qed.
End Proofs.
End ExportTable.

(** ** The functions run on concrete worlds *)

Module Examples.
Import Helpers KeyLifecycle.

Definition proc : process :=
  {| p_home := "/home/db2"; p_euid := 1000; p_egid := 1000;
     p_groups := fun _ => false; p_umask := 18; p_create := fun _ => None |}.

Definition secret0 : string := "0123456789abcdef0123456789abcdef".

(** An unlocked key record, as [db_keys_set] stores a new key. *)
Definition key0 : gmap string pyval :=
  <["secrethash" := VStr "c0ffee"]> (<["hash" := VNone]>
    (<["locked" := VBool false]> (<["secret" := VStr secret0]> ∅))).

Definition keyfile0 : file := File key0 420 1000 1000.

Definition world0 : world :=
  {| w_files := {[ _secretkeyfile proc := keyfile0 ]};
     w_default_secretkey := _default_secretkey;
     w_entropy := 0; w_stdin := []; w_stdout := [] |}.

(** The same key locked with the pass-phrase ["open sesame"]. *)
Definition token0 : string :=
  String.string_of_list_byte
    (fernet_encrypt Toy.lib (password_to_key Toy.lib "open sesame") 0
       (str_encode Toy.lib secret0)).

Definition key_locked : gmap string pyval := locked_record Toy.lib key0 token0 "open sesame".

Definition keyfile_locked : file := File key_locked 384 1000 1000.

Definition world_locked (typed : list string) : world :=
  {| w_files := {[ _secretkeyfile proc := keyfile_locked ]};
     w_default_secretkey := _default_secretkey;
     w_entropy := 1; w_stdin := typed; w_stdout := [] |}.

(** The value a run returned (the empty dictionary if it raised). *)
Definition fst_return (run : outcome (gmap string pyval) * world) : gmap string pyval :=
  match fst run with
  | Return d => d
  | Raise _ => ∅
  end.

Lemma stored_key0 : stored proc world0 (_secretkeyfile proc) key0.
Proof. exists keyfile0. by vm_compute. Qed.

Lemma stored_key_locked typed :
  stored proc (world_locked typed) (_secretkeyfile proc) key_locked.
Proof. exists keyfile_locked. by vm_compute. Qed.

Lemma lock_unlock_roundtrip_witness :
  exists w1 w2 sk',
    db_keys_lock Toy.lib proc (Some "open sesame") world0 = (Return true, w1) /\
    db_keys_unlock Toy.lib proc (Some "open sesame") w1 = (Return true, w2) /\
    stored proc w2 (_secretkeyfile proc) sk' /\
    sk' !! "secret" = Some (VStr secret0) /\
    sk' !! "locked" = Some (VBool false).
Proof.
  apply (lock_unlock_roundtrip Toy.lib proc Toy.lib_laws world0 key0 secret0 "open sesame").
  - exact stored_key0.
  - reflexivity.
  - reflexivity.
  - discriminate.
Defined.

Lemma lock_unlock_idempotent_witness :
  (exists w', db_keys_lock Toy.lib proc (Some "other") (world_locked []) = (Return true, w') /\
     w_files w' = w_files (world_locked [])) /\
  (exists w', db_keys_unlock Toy.lib proc None world0 = (Return true, w') /\
     w_files w' = w_files world0).
Proof.
  split.
  - apply (lock_unlock_idempotent Toy.lib proc (Some "other") (world_locked []) key_locked
             (stored_key_locked [])).
    reflexivity.
  - apply (lock_unlock_idempotent Toy.lib proc None world0 key0 stored_key0).
    reflexivity.
Defined.

Lemma unlock_wrong_passphrase_witness :
  exists w', db_keys_unlock Toy.lib proc (Some "guess") (world_locked []) = (Return false, w') /\
    w_files w' = w_files (world_locked []).
Proof.
  apply (unlock_wrong_passphrase Toy.lib proc (world_locked []) key_locked (VBool true) "guess").
  - exact (stored_key_locked []).
  - reflexivity.
  - reflexivity.
  - discriminate.
  - vm_compute. discriminate.
Defined.

(** C5 as stated fails on the empty pass-phrase: its digest is not the
    stored one, yet [db_keys_unlock] prompts, and with the right phrase
    typed it returns [True] and rewrites the key file unlocked. *)
Lemma unlock_empty_passphrase_prompts :
  key_locked !! "hash" <> Some (VStr (blake2b_hex Toy.lib "")) /\
  exists w' f,
    db_keys_unlock Toy.lib proc (Some "") (world_locked ["open sesame"]) = (Return true, w') /\
    w_files w' !! _secretkeyfile proc = Some f /\
    f_data f !! "locked" = Some (VBool false) /\
    f_data f !! "secret" = Some (VStr secret0) /\
    w_files w' <> w_files (world_locked ["open sesame"]).
Proof.
  split; [vm_compute; discriminate|].
  eexists _, _. split; [vm_compute; reflexivity|].
  split; [vm_compute; reflexivity|].
  split; [vm_compute; reflexivity|].
  split; [vm_compute; reflexivity|].
  vm_compute. discriminate.
Qed.


Lemma keys_get_locked_witness :
  (exists w',
     db_keys_get Toy.lib proc (Some "open sesame") true (world_locked [])
       = (Return (unlocked_record key_locked secret0), w') /\
     unlocked_record key_locked secret0 !! "secret" = Some (VStr secret0) /\
     unlocked_record key_locked secret0 !! "locked" = Some (VBool false) /\
     w_files w' = w_files (world_locked [])) /\
  (exists w',
     db_keys_get Toy.lib proc (Some "guess") true (world_locked []) = (Raise InvalidToken, w') /\
     w_files w' = w_files (world_locked [])).
Proof.
  split.
  - refine (proj1 (keys_get_locked Toy.lib proc Toy.lib_laws (world_locked []) keyfile_locked
                     (VBool true) token0 "open sesame" true _ _ _ _ _ _ _) secret0 0%N _);
      try reflexivity; [by eexists | discriminate].
  - refine (proj2 (keys_get_locked Toy.lib proc Toy.lib_laws (world_locked []) keyfile_locked
                     (VBool true) token0 "guess" true _ _ _ _ _ _ _) _);
      try reflexivity; [by eexists | discriminate].
Defined.

(** C4 as stated fails on a password whose digest is not the stored one:
    [db_keys_get] does not return the record, it raises [InvalidToken]. *)
Lemma keys_get_wrong_password_raises :
  key_locked !! "locked" = Some (VBool true) /\
  key_locked !! "hash" <> Some (VStr (blake2b_hex Toy.lib "guess")) /\
  exists w',
    db_keys_get Toy.lib proc (Some "guess") true (world_locked []) = (Raise InvalidToken, w') /\
    forall r w'', db_keys_get Toy.lib proc (Some "guess") true (world_locked []) <> (Return r, w'').
Proof.
  split; [reflexivity|]. split; [vm_compute; discriminate|].
  eexists. split; [vm_compute; reflexivity|].
  intros r w''. vm_compute. discriminate.
Qed.

(** A home directory with no key file yet. *)
Definition world_empty : world :=
  {| w_files := ∅; w_default_secretkey := _default_secretkey;
     w_entropy := 0; w_stdin := []; w_stdout := [] |}.

Lemma keys_get_generates_witness :
  exists text rec w' f,
    let key := urlsafe_b64encode Toy.lib (os_urandom Toy.lib 32 (w_entropy world_empty)) in
    bytes_decode Toy.lib key = Some text /\
    fernet_key_ok Toy.lib (str_encode Toy.lib text) = true /\
    rec = <["secrethash" := VStr (blake2b_hexdigest Toy.lib key)]>
            (<["hash" := VNone]> (<["locked" := VBool false]>
              (<["secret" := VStr text]> (w_default_secretkey world_empty)))) /\
    db_keys_get Toy.lib proc None true world_empty = (Return rec, w') /\
    w_files w' = <[_secretkeyfile proc := f]> (w_files world_empty) /\
    f_data f = rec /\ owner_only proc f /\ may_read proc f = true.
Proof.
  exact (keys_get_generates Toy.lib proc Toy.lib_laws None true world_empty eq_refl eq_refl).
Defined.

Definition settings0 : gmap string pyval :=
  <["database" := VStr "Sample"]> (<["hostname" := VStr "db.example.org"]>
  (<["protocol" := VStr "tcpip"]> (<["port" := VStr "50000"]>
  (<["uid" := VStr "db2inst1"]> (<["pwd" := VStr "hunter2"]>
  (<["environment" := VStr "dev"]> (<["security" := VStr "nossl"]>
  (<["servercert" := VStr "db2inst1.arm"]> (<["secrethash" := VStr ""]> ∅))))))))).

Definition world_saved : world := snd (db_save_settings Toy.lib proc settings0 None world0).

Lemma save_settings0 :
  db_save_settings Toy.lib proc settings0 None world0 = (Return true, world_saved).
Proof. by vm_compute. Qed.

Lemma save_settings_sealed_witness :
  (Return true <> Return true /\
   forall path, path <> _secretkeyfile proc ->
     w_files world_saved !! path = w_files world0 !! path) \/
  exists keys w1 kh sec plain tok fname f,
    obtains_key Toy.lib proc None world0 keys w1 /\
    keys !! "secret" = Some (VStr sec) /\
    keys !! "secrethash" = Some kh /\
    settings0 !! "pwd" = Some (VStr plain) /\
    bytes_decode Toy.lib
      (fernet_encrypt Toy.lib (str_encode Toy.lib sec) (w_entropy w1) (str_encode Toy.lib plain))
      = Some tok /\
    tok <> plain /\
    let sealed := <["pwd" := VStr tok]> (<["secrethash" := kh]> settings0) in
    sealed !! "pwd" = Some (VStr tok) /\
    sealed !! "secrethash" = Some kh /\
    w_files world_saved !! fname = Some f /\ f_data f = sealed /\
    forall path, path <> _secretkeyfile proc -> path <> fname ->
      w_files world_saved !! path = w_files world0 !! path.
Proof.
  exact (save_settings_sealed Toy.lib proc Toy.lib_laws settings0 None world0 (Return true)
           world_saved save_settings0).
Defined.

Definition world_keyed : world := snd (db_keys_set Toy.lib proc ∅ true world0).

Lemma written_files_owner_only_witness :
  (exists f, w_files world_keyed !! _secretkeyfile proc = Some f /\
     f_mode f = Z.lor S_IRUSR S_IWUSR /\ Z.land (f_mode f) 63 = 0) /\
  (exists e h d f,
     settings0 !! "environment" = Some (VStr e) /\
     settings0 !! "hostname" = Some (VStr h) /\
     settings0 !! "database" = Some (VStr d) /\
     w_files world_saved
       !! settings_file (str_lower Toy.lib e) (str_lower Toy.lib h) (str_lower Toy.lib d)
       = Some f /\
     f_mode f = Z.lor S_IRUSR S_IWUSR /\ Z.land (f_mode f) 63 = 0).
Proof.
  split.
  - refine (proj1 (written_files_owner_only Toy.lib proc) ∅ true world0
              (fst_return (db_keys_set Toy.lib proc ∅ true world0)) world_keyed _ _).
    + by vm_compute.
    + vm_compute. discriminate.
  - exact (proj2 (written_files_owner_only Toy.lib proc) settings0 None world0 world_saved
             save_settings0).
Defined.

Lemma password_to_key_spec_witness :
  password_to_key Toy.lib "open sesame"
    = urlsafe_b64encode Toy.lib
        (PBKDF2HMAC Toy.lib SHA256 32 salt 100000 (str_encode Toy.lib "open sesame")) /\
  String.string_of_list_byte salt = "2390489409578390" /\
  length (PBKDF2HMAC Toy.lib SHA256 32 salt 100000 (str_encode Toy.lib "open sesame")) = 32%nat /\
  fernet_key_ok Toy.lib (password_to_key Toy.lib "open sesame") = true /\
  (forall q, q = "open sesame" ->
     password_to_key Toy.lib q = password_to_key Toy.lib "open sesame").
Proof. exact (password_to_key_spec Toy.lib Toy.lib_laws "open sesame"). Defined.

Lemma settings_roundtrip_witness :
  exists plain r w2,
    settings0 !! "pwd" = Some (VStr plain) /\
    db_load_settings Toy.lib proc "SAMPLE" "DB.Example.ORG" "Dev" None world_saved
      = (Return (Some r), w2) /\
    r !! "pwd" = Some (VStr plain).
Proof.
  refine (settings_roundtrip Toy.lib proc Toy.lib_laws settings0 None None world0 world_saved
            key0 secret0 "SAMPLE" "DB.Example.ORG" "Dev" "Sample" "db.example.org" "dev"
            stored_key0 eq_refl eq_refl _ save_settings0
            eq_refl eq_refl eq_refl eq_refl eq_refl eq_refl).
  discriminate.
Defined.



(** The settings file that [world_saved] holds, by name. *)
Definition fname0 : string := "dev_db.example.org_sample.pickle".

Lemma stored_key_saved : stored proc world_saved (_secretkeyfile proc) key0.
Proof. exists keyfile0. by vm_compute. Qed.

Lemma key_functions_only_write_key_file_witness :
  (forall pw o w', db_keys_lock Toy.lib proc pw world_saved = (o, w') ->
     w_files w' !! fname0 = w_files world_saved !! fname0) /\
  (forall pw o w', db_keys_unlock Toy.lib proc pw world_saved = (o, w') ->
     w_files w' !! fname0 = w_files world_saved !! fname0) /\
  (forall pw prompt o w', db_keys_get Toy.lib proc pw prompt world_saved = (o, w') ->
     w_files w' !! fname0 = w_files world_saved !! fname0) /\
  (forall database hostname environment pw o w',
     db_load_settings Toy.lib proc database hostname environment pw world_saved = (o, w') ->
     w_files w' !! fname0 = w_files world_saved !! fname0).
Proof.
  apply (key_functions_only_write_key_file Toy.lib proc world_saved fname0).
  vm_compute. discriminate.
Defined.

Lemma load_settings_returns_witness :
  exists r w',
    db_load_settings Toy.lib proc "payroll" "db.example.org" "prod" None world_saved
      = (Return r, w') /\
    w_files w' = w_files world_saved.
Proof.
  exact (load_settings_returns Toy.lib proc "payroll" "db.example.org" "prod" None
           world_saved key0 stored_key_saved eq_refl).
Defined.

(** What [db_load_settings] answers on [world_saved]. *)
Definition loaded0 : gmap string pyval :=
  match fst (db_load_settings Toy.lib proc "SAMPLE" "DB.Example.ORG" "Dev" None world_saved) with
  | Return (Some r) => r
  | _ => ∅
  end.

Lemma load_settings0 :
  db_load_settings Toy.lib proc "SAMPLE" "DB.Example.ORG" "Dev" None world_saved
  = (Return (Some loaded0), world_saved).
Proof. by vm_compute. Qed.

Lemma load_settings_sound_witness :
  exists st kh sec tok m plain,
    stored proc world_saved
      (settings_file (str_lower Toy.lib "Dev") (str_lower Toy.lib "DB.Example.ORG")
         (str_lower Toy.lib "SAMPLE")) st /\
    st !! "secrethash" = Some kh /\
    key0 !! "secrethash" = Some kh /\
    key0 !! "secret" = Some (VStr sec) /\
    st !! "pwd" = Some (VStr tok) /\
    fernet_decrypt Toy.lib (str_encode Toy.lib sec) (str_encode Toy.lib tok) = Some m /\
    bytes_decode Toy.lib m = Some plain /\
    loaded0 = <["pwd" := VStr plain]> st.
Proof.
  exact (load_settings_sound Toy.lib proc "SAMPLE" "DB.Example.ORG" "Dev" None world_saved
           key0 loaded0 world_saved stored_key_saved eq_refl load_settings0).
Defined.

Lemma save_lock_load_witness :
  exists w2 plain r w3,
    db_keys_lock Toy.lib proc (Some "open sesame") world_saved = (Return true, w2) /\
    settings0 !! "pwd" = Some (VStr plain) /\
    db_load_settings Toy.lib proc "SAMPLE" "DB.Example.ORG" "Dev" (Some "open sesame") w2
      = (Return (Some r), w3) /\
    r !! "pwd" = Some (VStr plain).
Proof.
  refine (save_lock_load Toy.lib proc Toy.lib_laws settings0 None world0 world_saved
            key0 secret0 "open sesame" "SAMPLE" "DB.Example.ORG" "Dev"
            "Sample" "db.example.org" "dev"
            stored_key0 eq_refl eq_refl _ _ save_settings0
            eq_refl eq_refl eq_refl eq_refl eq_refl eq_refl); discriminate.
Defined.

Lemma save_keeps_other_settings_witness :
  fst (db_load_settings Toy.lib proc "payroll" "db.example.org" "prod" None world_saved)
  = fst (db_load_settings Toy.lib proc "payroll" "db.example.org" "prod" None world0).
Proof.
  refine (save_keeps_other_settings Toy.lib proc settings0 None None world0 true
            world_saved key0 secret0 "payroll" "db.example.org" "prod"
            "Sample" "db.example.org" "dev"
            stored_key0 eq_refl eq_refl _ save_settings0 eq_refl eq_refl eq_refl _).
  - discriminate.
  - vm_compute. discriminate.
Defined.

(** Ten answers that are not the pass-phrase. *)
Definition guesses : list string :=
  ["a"; "b"; "c"; "d"; "e"; "f"; "g"; "h"; "i"; "j"].

Lemma keys_get_prompts_witness :
  (exists w',
     db_keys_get Toy.lib proc None true (world_locked ["guess"; "open sesame"; "later"])
       = (Return (unlocked_record key_locked secret0), w') /\
     w_stdin w' = ["later"] /\
     w_files w' = w_files (world_locked ["guess"; "open sesame"; "later"])) /\
  (exists w',
     db_keys_get Toy.lib proc None true (world_locked (guesses ++ ["open sesame"]))
       = (Raise InvalidToken, w') /\
     w_stdin w' = ["open sesame"] /\
     w_files w' = w_files (world_locked (guesses ++ ["open sesame"]))).
Proof.
  split.
  - refine (proj1 (keys_get_prompts Toy.lib proc Toy.lib_laws None
                     (world_locked ["guess"; "open sesame"; "later"]) keyfile_locked
                     (VBool true) token0 eq_refl eq_refl eq_refl eq_refl eq_refl eq_refl)
              "open sesame" secret0 0%N ["guess"] ["later"] eq_refl eq_refl _ _ eq_refl).
    + repeat constructor. vm_compute. discriminate.
    + cbn. lia.
  - refine (proj2 (keys_get_prompts Toy.lib proc Toy.lib_laws None
                     (world_locked (guesses ++ ["open sesame"])) keyfile_locked
                     (VBool true) token0 eq_refl eq_refl eq_refl eq_refl eq_refl eq_refl)
              (VStr (blake2b_hex Toy.lib "open sesame"))
              (take 9 guesses) "j" ["open sesame"] eq_refl _ eq_refl eq_refl eq_refl).
    repeat constructor; vm_compute; discriminate.
Defined.

(** The key files of [world0] and [world_locked], owned by root and
    readable by all: the process may read them and not write them. *)
Definition world_root_owned (sk : gmap string pyval) : world :=
  {| w_files := {[ _secretkeyfile proc := File sk 420 0 0 ]};
     w_default_secretkey := _default_secretkey;
     w_entropy := 1; w_stdin := []; w_stdout := [] |}.

Lemma read_only_key_file_reports_success_witness :
  (exists w1,
     db_keys_lock Toy.lib proc (Some "open sesame") (world_root_owned key0) = (Return true, w1) /\
     w_files w1 = w_files (world_root_owned key0) /\
     w_stdout w1 = (w_stdout (world_root_owned key0) ++
       ["Failed trying to write secret key file (permissions).";
        "Secret key successfully locked"])%list) /\
  (exists w1,
     db_keys_unlock Toy.lib proc (Some "open sesame") (world_root_owned key_locked)
       = (Return true, w1) /\
     w_files w1 = w_files (world_root_owned key_locked) /\
     w_stdout w1 = (w_stdout (world_root_owned key_locked) ++
       ["Failed trying to write secret key file (permissions).";
        "Secret key successfully unlocked"])%list).
Proof.
  split.
  - refine (proj1 (read_only_key_file_reports_success Toy.lib proc Toy.lib_laws
                     (world_root_owned key0) (File key0 420 0 0) "open sesame"
                     eq_refl eq_refl eq_refl _) secret0 eq_refl eq_refl).
    discriminate.
  - refine (proj2 (read_only_key_file_reports_success Toy.lib proc Toy.lib_laws
                     (world_root_owned key_locked) (File key_locked 420 0 0) "open sesame"
                     eq_refl eq_refl eq_refl _)
              (VBool true) token0 (str_encode Toy.lib secret0) secret0
              eq_refl eq_refl eq_refl eq_refl eq_refl eq_refl).
    discriminate.
Defined.

End Examples.

Module ExportExamples.
Import ImportExport ExportTable.

Definition row1 : row := <["ID" := "1"]> (<["NAME" := "Ada"]> ∅).
Definition row2 : row := <["ID" := "2"]> (<["NAME" := "Grace"]> ∅).

(** A result set of two rows; one whose second fetch fails; and a statement
    whose [execute] answers [False]. *)
Definition stmt_ok : statement :=
  Statement (Return ["ID"; "NAME"]) (Return true) [Return row1; Return row2] (Return true).

Definition stmt_broken : statement :=
  Statement (Return ["ID"; "NAME"]) (Return true)
            [Return row1; Raise (DriverError "SQL0911N")] (Return true).

Definition stmt_unexecuted : statement :=
  Statement (Return ["ID"; "NAME"]) (Return false) [] (Return true).

Definition driver_of (stmt : statement) : driver :=
  {| d_primary_keys := fun _ _ => Return ["ID"];
     d_prepare := fun _ => Return stmt;
     d_errormsg := "SQLSTATE=40001" |}.

Definition allowed : string -> option exn := fun _ => None.

Definition csv : string := filecsv Toy.lib "db/dev/sample" "DB2INST1" "Emp".
Definition tmp : string := filetmp Toy.lib "db/dev/sample" "DB2INST1" "Emp".

Definition old_records : list (list string) := [["ID"; "NAME"]; ["9"; "Old"]].
Definition stale_records : list (list string) := [["ID"; "NAME"]; ["7"; "Stale"]].

(** The folder holds an earlier export; in [world_stale] also the temporary
    file an interrupted export left behind. *)
Definition world_old : world := {| w_files := {[ csv := old_records ]}; w_stdout := [] |}.

Definition world_stale : world :=
  {| w_files := <[tmp := stale_records]> {[ csv := old_records ]}; w_stdout := [] |}.

Definition run_export (stmt : statement) (w : world) : outcome bool * world :=
  export_table Toy.lib (driver_of stmt) "db/dev/sample" true allowed "DB2INST1" "Emp" w.

Definition run_unload (stmt : statement) (w : world) : outcome nat * world :=
  unload (driver_of stmt) true allowed
    (sql_text Toy.lib (Some "ID") "DB2INST1" "Emp") tmp w.

Lemma export_failure_keeps_csv_witness :
  (exists w', run_export stmt_broken world_old = (Return false, w') /\
     w_files w' !! csv = w_files world_old !! csv) /\
  (exists n w1 content,
     run_unload stmt_ok world_old = (Return n, w1) /\
     w_files w1 !! tmp = Some content /\
     w_files (snd (run_export stmt_ok world_old)) !! csv = Some content /\
     w_files (snd (run_export stmt_ok world_old)) !! tmp = None).
Proof.
  split.
  - refine (proj1 (export_failure_keeps_csv Toy.lib (driver_of stmt_broken) "db/dev/sample"
                     true allowed "DB2INST1" "Emp" world_old (Some "ID") world_old _)
              (DriverError "SQL0911N") (snd (run_unload stmt_broken world_old)) _);
      by vm_compute.
  - refine (proj2 (export_failure_keeps_csv Toy.lib (driver_of stmt_ok) "db/dev/sample"
                     true allowed "DB2INST1" "Emp" world_old (Some "ID") world_old _)
              (snd (run_export stmt_ok world_old)) _);
      by vm_compute.
Defined.

Lemma export_success_records_witness :
  exists rows,
    st_rows stmt_ok = Return <$> rows /\
    w_files (snd (run_export stmt_ok world_old)) !! csv
      = Some (csv_of true (columns_of stmt_ok) rows) /\
    length (csv_of true (columns_of stmt_ok) rows) = (length rows + 1)%nat.
Proof.
  refine (export_success_records Toy.lib (driver_of stmt_ok) "db/dev/sample" true allowed
            "DB2INST1" "Emp" world_old (Some "ID") world_old stmt_ok
            (snd (run_export stmt_ok world_old)) _ _ _ _);
    by vm_compute.
Defined.

(** The export of the two rows, run: a header and one record per row. *)
Lemma export_two_rows :
  exists w', run_export stmt_ok world_old = (Return true, w') /\
    w_files w' !! csv = Some [["ID"; "NAME"]; ["1"; "Ada"]; ["2"; "Grace"]].
Proof. eexists. split; by vm_compute. Qed.

(** C8 fails when [ibm_db.execute] answers [False] while a stale temporary
    file exists: nothing is fetched or written, not even the header, yet the
    stale file is renamed over the CSV file and [export_table] returns
    [True]. *)
Lemma export_unexecuted_publishes_stale :
  st_execute stmt_unexecuted = Return false /\
  exists w',
    run_export stmt_unexecuted world_stale = (Return true, w') /\
    w_files w' !! csv = Some stale_records /\
    stale_records <> csv_of true (columns_of stmt_unexecuted) [].
Proof.
  split; [reflexivity|]. eexists. split; [by vm_compute|].
  split; [by vm_compute|]. vm_compute. discriminate.
Qed.

(** Without a stale temporary file the same statement makes [export_table]
    return [False] after it has unlinked the CSV file. *)
Lemma export_unexecuted_unlinks_csv :
  exists w',
    run_export stmt_unexecuted world_old = (Return false, w') /\
    w_files w' !! csv = None.
Proof. eexists. split; by vm_compute. Qed.

End ExportExamples.
